(** * Daily land-surface-temperature prediction: a shallow embedding

    The script under verification (the LST prediction script of the
    repository) is an Earth Engine client program: every value it builds is
    a description of a server-side computation.  This development embeds
    the script as pure Rocq functions over a small model of the Earth
    Engine objects it manipulates:

    - a raster band is a partial function from pixels to rationals
      ([None] is a masked pixel);
    - an image is an ordered list of named bands, a dictionary of
      properties and a footprint;
    - an image collection and an [ee.List] are Rocq lists;
    - a day-resolution [ee.Date] is the number of days since the epoch.

    Numbers are exact rationals: the script's floating-point arithmetic is
    idealised.  Platform algorithms whose definition is not part of the
    script (focal mean, slope, the stratified point sampler, the random
    column generator and the random-forest learner) are the fields of the
    [Platform] class.

    The monthly false colour script of the repository is embedded the same
    way; its dates are calendar dates, turned into day numbers by the
    proleptic Gregorian calendar. *)

From Stdlib Require Import ZArith QArith Qround List Sorted Permutation Lia Lqa.
From stdpp Require Import gmap strings list fin_maps.
Import ListNotations.
Open Scope Z_scope.

(** ** Generic list machinery *)

Section Isort.
Context {A : Type} (leb : A -> A -> bool).

Fixpoint insert_sorted (x : A) (l : list A) : list A :=
  match l with
  | [] => [x]
  | y :: l' => if leb x y then x :: l else y :: insert_sorted x l'
  end.

(** Stable insertion sort: an element is placed in front of the first
    element it does not exceed, so equal keys keep their input order. *)
Fixpoint isort (l : list A) : list A :=
  match l with
  | [] => []
  | x :: l' => insert_sorted x (isort l')
  end.
End Isort.

(** ** Rational helpers *)

Definition Qlt_bool (a b : Q) : bool := negb (Qle_bool b a).
Definition Qsum (l : list Q) : Q := fold_right Qplus 0%Q l.

(** ** Earth Engine objects *)

Module EE.

Definition Pixel : Type := Z * Z.
Definition Geometry : Type := list Pixel.
Definition Band : Type := Pixel -> option Q.
Definition Date : Type := Z.

Record Image := mkImage {
  bands : list (string * Band);
  props : gmap string Q;
  footprint : option Geometry   (* [None]: unbounded *)
}.

Abbreviation ImageCollection := (list Image).

Definition pixel_eqb (p q : Pixel) : bool :=
  (fst p =? fst q) && (snd p =? snd q).

Definition inside (g : Geometry) (p : Pixel) : bool :=
  existsb (pixel_eqb p) g.

Definition intersects (g h : Geometry) : bool := existsb (inside h) g.

(** *** Dates *)

Definition millis_per_day : Z := 86400000.
(** [ee.Date(d).millis()] *)
Definition millis (d : Date) : Z := d * millis_per_day.
(** [ee.Date(d).advance(n, 'day')] *)
Definition advance (d : Date) (n : Z) : Date := d + n.
(** [ee.Date(e).difference(ee.Date(s), 'day')] *)
Definition difference (e s : Date) : Z := e - s.

(** [ee.List.sequence(a, b)]: a, a+1, ..., b; empty when b < a. *)
Definition sequence (a b : Z) : list Z :=
  List.map (fun i => a + Z.of_nat i) (seq 0 (Z.to_nat (b - a + 1))).

(** *** Bands *)

Definition masked : Band := fun _ => None.
Definition constant (v : Q) : Band := fun _ => Some v.

Definition band_map (f : Q -> Q) (b : Band) : Band :=
  fun p => match b p with Some v => Some (f v) | None => None end.

Definition band_map2 (f : Q -> Q -> Q) (a b : Band) : Band :=
  fun p => match a p, b p with
           | Some x, Some y => Some (f x y)
           | _, _ => None
           end.

Definition bool_Q (b : bool) : Q := if b then 1%Q else 0%Q.
Definition nonzero (v : Q) : bool := negb (Qeq_bool v 0).

Definition band_eq (v : Q) : Band -> Band :=
  band_map (fun x => bool_Q (Qeq_bool x v)).
Definition band_lt (v : Q) : Band -> Band :=
  band_map (fun x => bool_Q (Qlt_bool x v)).
Definition band_gte (v : Q) : Band -> Band :=
  band_map (fun x => bool_Q (Qle_bool v x)).
Definition band_and : Band -> Band -> Band :=
  band_map2 (fun x y => bool_Q (nonzero x && nonzero y)).
Definition band_bitwiseAnd (k : Z) : Band -> Band :=
  band_map (fun x => inject_Z (Z.land (Qfloor x) k)).

(** [updateMask]: a pixel stays visible only where the mask is a
    non-zero, unmasked value. *)
Definition band_updateMask (mask b : Band) : Band :=
  fun p => match mask p with
           | Some m => if nonzero m then b p else None
           | None => None
           end.

(** [where(test, value)]: replace by [value] where [test] is non-zero. *)
Definition band_where (test : Band) (value : Q) (b : Band) : Band :=
  fun p => match test p with
           | Some t => if nonzero t then
                         match b p with Some _ => Some value | None => None end
                       else b p
           | None => b p
           end.

Definition band_clip (g : Geometry) (b : Band) : Band :=
  fun p => if inside g p then b p else None.

(** *** Images *)

(** [ee.Image()]: one fully masked band named "constant". *)
Definition empty_image : Image := mkImage [("constant"%string, masked)] ∅ None.
(** [ee.Image(v)] *)
Definition constant_image (v : Q) : Image :=
  mkImage [("constant"%string, constant v)] ∅ None.

Definition bandNames (i : Image) : list string := List.map fst (bands i).

Definition find_band (n : string) (l : list (string * Band)) : option Band :=
  snd <$> List.find (fun nb => String.eqb n (fst nb)) l.

(** The band called [n].  Earth Engine fails the whole computation when
    the band is absent; every band the script selects by name belongs to
    the catalogue schema of its collection, and the model reads an absent
    band as fully masked. *)
Definition band (n : string) (i : Image) : Band :=
  match find_band n (bands i) with Some b => b | None => masked end.

Definition first_band (i : Image) : Band :=
  match bands i with (_, b) :: _ => b | [] => masked end.

(** [image.select(n)] *)
Definition select (n : string) (i : Image) : Image :=
  mkImage [(n, band n i)] (props i) (footprint i).

(** [image.select("B.*")]: the bands whose whole name matches the
    regular expression, that is, whose name starts with B. *)
Definition select_B (i : Image) : Image :=
  mkImage (List.filter (fun nb => String.prefix "B" (fst nb)) (bands i))
          (props i) (footprint i).

Definition map_bands (f : Band -> Band) (i : Image) : Image :=
  mkImage (List.map (fun nb => (fst nb, f (snd nb))) (bands i))
          (props i) (footprint i).

(** [image.rename(names)]: the bands keep their order and take the new
    names. *)
Definition rename (names : list string) (i : Image) : Image :=
  mkImage (combine names (List.map snd (bands i))) (props i) (footprint i).

(** [image.set(k, v)] *)
Definition set (k : string) (v : Q) (i : Image) : Image :=
  mkImage (bands i) (<[k := v]> (props i)) (footprint i).

(** [image.get(k)] *)
Definition get (k : string) (i : Image) : option Q := props i !! k.

Definition updateMask (mask : Band) : Image -> Image :=
  map_bands (band_updateMask mask).
Definition divide (v : Q) : Image -> Image :=
  map_bands (band_map (fun x => x / v)%Q).
Definition multiply (v : Q) : Image -> Image :=
  map_bands (band_map (fun x => x * v)%Q).
Definition add (v : Q) : Image -> Image :=
  map_bands (band_map (fun x => x + v)%Q).
Definition subtract (v : Q) : Image -> Image :=
  map_bands (band_map (fun x => x - v)%Q).
Definition clip (g : Geometry) (i : Image) : Image :=
  mkImage (List.map (fun nb => (fst nb, band_clip g (snd nb))) (bands i))
          (props i) (Some g).

(** [ee.Image([i1, i2, ...])] and [i.addBands([...])]: the bands of the
    arguments in order, with the properties of the first image.  (Earth
    Engine suffixes a band whose name is already taken; the script's
    band names are pairwise distinct.) *)
Definition cat (first : Image) (rest : list Image) : Image :=
  mkImage (bands first ++ concat (List.map bands rest))
          (props first) (footprint first).

(** [image.normalizedDifference([a, b])]: (a - b) / (a + b) in a band
    named "nd"; masked where an input is masked or negative or where the
    sum is zero; the properties of the input are not kept. *)
Definition normalizedDifference (a b : string) (i : Image) : Image :=
  mkImage
    [("nd"%string,
      fun p => match band a i p, band b i p with
               | Some x, Some y =>
                   if Qlt_bool x 0 || Qlt_bool y 0 || Qeq_bool (x + y) 0
                   then None else Some ((x - y) / (x + y))%Q
               | _, _ => None
               end)]
    ∅ (footprint i).

(** [image.reduce(ee.Reducer.allNonZero())] *)
Definition allNonZero (i : Image) : Band :=
  fun p => fold_right
             (fun nb acc => match snd nb p, acc with
                            | Some v, Some a => Some (bool_Q (nonzero v && nonzero a))
                            | _, _ => None
                            end)
             (Some 1%Q) (bands i).

(** *** Filters *)

Definition Filter : Type := Image -> bool.

Definition filter_bounds (g : Geometry) : Filter :=
  fun i => match footprint i with
           | Some f => intersects f g
           | None => true
           end.

(** [ee.Filter.date(a, b)]: start time in the half-open range. *)
Definition filter_date (a b : Date) : Filter :=
  fun i => match get "system:time_start" i with
           | Some t => Qle_bool (inject_Z (millis a)) t
                       && Qlt_bool t (inject_Z (millis b))
           | None => false
           end.

Definition filter_eq (k : string) (v : Q) : Filter :=
  fun i => match get k i with Some x => Qeq_bool x v | None => false end.
(** [ee.Filter.neq] is the negation of [ee.Filter.eq]: an image without
    the property passes. *)
Definition filter_neq (k : string) (v : Q) : Filter :=
  fun i => negb (filter_eq k v i).
Definition filter_lt (k : string) (v : Q) : Filter :=
  fun i => match get k i with Some x => Qlt_bool x v | None => false end.
Definition filter_and (f g : Filter) : Filter := fun i => f i && g i.

(** *** Collections *)

Definition size (c : ImageCollection) : Z := Z.of_nat (length c).

Definition key_leb (a b : option Q) : bool :=
  match a, b with
  | None, _ => true
  | Some _, None => false
  | Some x, Some y => Qle_bool x y
  end.

(** [collection.sort(k)]: ascending, stable; images without the property
    come first. *)
Definition sort (k : string) (c : ImageCollection) : ImageCollection :=
  isort (fun i j => key_leb (get k i) (get k j)) c.

(** The unmasked values a list of bands has at a pixel. *)
Definition values_at (p : Pixel) (bs : list Band) : list Q :=
  omap (fun b => b p) bs.

Definition mean_of (l : list Q) : option Q :=
  match l with
  | [] => None
  | _ => Some (Qsum l / inject_Z (Z.of_nat (length l)))%Q
  end.

Definition median_of (l : list Q) : option Q :=
  let s := isort Qle_bool l in
  let n := length s in
  match n with
  | O => None
  | _ => if Nat.even n
         then Some ((nth (n / 2 - 1) s 0 + nth (n / 2) s 0) / 2)%Q
         else Some (nth (n / 2) s 0%Q)
  end.

(** [collection.reduce]-style composites ([mean()], [median()]): band by
    band and pixel by pixel over the unmasked inputs; the band names are
    those of the first image; no property survives. *)
Definition composite (r : list Q -> option Q) (c : ImageCollection) : Image :=
  match c with
  | [] => mkImage [] ∅ None
  | i :: _ =>
      mkImage (List.map (fun n => (n, fun p => r (values_at p (List.map (band n) c))))
                        (bandNames i))
              ∅ None
  end.
Definition mean : ImageCollection -> Image := composite mean_of.
Definition median : ImageCollection -> Image := composite median_of.

End EE.

(** ** Tables of samples, reducers and classifiers *)

Module Table.

(** A sample is a feature without geometry: a dictionary from column
    names to numbers. *)
Abbreviation Sample := (gmap string Q).
Abbreviation FeatureCollection := (list Sample).

(** All band values of an image at a pixel, or [None] when a band is
    masked there. *)
Definition read_pixel (i : EE.Image) (p : EE.Pixel) : option Sample :=
  list_to_map <$> mapM (fun nb => (fun v => (fst nb, v)) <$> snd nb p) (EE.bands i).

(** The value of Pearson's correlation reducer.  The coefficient
    cov / sqrt(vv) is irrational in general and is kept as the exact pair
    (cov, vv); it is not a number when vv is zero. *)
Record Corr := mkCorr { cov : Q; vv : Q }.

Definition NaN : Corr := mkCorr 0 0.

(** [ee.Number(r).pow(2)]; [None] stands for the not-a-number result. *)
Definition pow2 (r : Corr) : option Q :=
  if Qeq_bool (vv r) 0 then None else Some (Qred (cov r * cov r / vv r)%Q).

(** The rows of a table in which both columns are present. *)
Definition rows (a b : string) (t : FeatureCollection) : list (Q * Q) :=
  omap (fun s => match s !! a, s !! b with
                 | Some x, Some y => Some (x, y)
                 | _, _ => None
                 end) t.

(** n times the sum of squares minus the square of the sum: n² times the
    variance of the list. *)
Definition scaled_variance (xs : list Q) : Q :=
  (inject_Z (Z.of_nat (length xs)) * Qsum (List.map (fun x => x * x)%Q xs)
   - Qsum xs * Qsum xs)%Q.

(** n² times the covariance of the two columns of a list of rows. *)
Definition scaled_covariance (r : list (Q * Q)) : Q :=
  (inject_Z (Z.of_nat (length r)) * Qsum (List.map (fun xy => fst xy * snd xy)%Q r)
   - Qsum (List.map fst r) * Qsum (List.map snd r))%Q.

(** [ee.Reducer.pearsonsCorrelation()] on a list of (x, y) rows: the
    covariance over the root of the product of the variances, the common
    factor n² dropped. *)
Definition pearsonsCorrelation (r : list (Q * Q)) : Corr :=
  mkCorr (scaled_covariance r)
         (scaled_variance (List.map fst r) * scaled_variance (List.map snd r))%Q.

(** The selectors of a two-input reducer repeated n times are consumed
    two by two. *)
Fixpoint pairs (l : list string) : list (string * string) :=
  match l with
  | a :: b :: t => (a, b) :: pairs t
  | _ => []
  end.

(** [t.reduceColumns(ee.Reducer.pearsonsCorrelation().repeat(n), sel)],
    read at the key "correlation". *)
Definition reduceColumns_pearson (n : nat) (sel : list string)
    (t : FeatureCollection) : list Corr :=
  List.map (fun ab => pearsonsCorrelation (rows (fst ab) (snd ab) t))
           (firstn n (pairs sel)).

(** An element of the correlation table. *)
Record Ranked := mkRanked { feature : string; r2 : option Q }.

(** Order of the sort key; [nan_high] tells on which side of the numbers
    the platform puts a not-a-number key. *)
Definition score_leb (nan_high : bool) (a b : option Q) : bool :=
  match a, b with
  | Some x, Some y => Qle_bool x y
  | None, None => true
  | None, Some _ => negb nan_high
  | Some _, None => nan_high
  end.

(** [c.limit(n, 'r2', false)]: sort by descending r2, keep the first n. *)
Definition limit_r2_desc (nan_high : bool) (n : nat) (c : list Ranked) : list Ranked :=
  firstn n (isort (fun a b => score_leb nan_high (r2 b) (r2 a)) c).

(** [c.aggregate_array('feature')] *)
Definition aggregate_feature (c : list Ranked) : list string := List.map feature c.

(** [list.slice(0, k)] *)
Definition slice0 {A} (k : nat) (l : list A) : list A := firstn k l.

(** [t.filter(ee.Filter.lte(k, v))] *)
Definition filter_lte (k : string) (v : Q) (t : FeatureCollection) : FeatureCollection :=
  List.filter (fun s => match s !! k with Some x => Qle_bool x v | None => false end) t.

(** A trained regression model: the input names it was fitted on and the
    learned function. *)
Record Classifier := mkClassifier {
  inputs : list string;
  predict : list Q -> Q
}.

(** The training rows: predictor values and target of each sample that
    has them all. *)
Definition training_rows (t : FeatureCollection) (target : string)
    (ins : list string) : list (list Q * Q) :=
  omap (fun s => match mapM (fun n => s !! n) ins, s !! target with
                 | Some xs, Some y => Some (xs, y)
                 | _, _ => None
                 end) t.

(** [image.classify(model, name)]: a single band called [name], masked
    where an input band is. *)
Definition classify (m : Classifier) (name : string) (i : EE.Image) : EE.Image :=
  EE.mkImage
    [(name, fun p => predict m <$> mapM (fun n => EE.band n i p) (inputs m))]
    (EE.props i) (EE.footprint i).

End Table.

(** ** The platform and the archive *)

(** Algorithms of the platform that the script calls and does not define. *)
Class Platform := {
  (** [image.focalMean(radius)] *)
  ee_focalMean : Z -> EE.Band -> EE.Band;
  (** [ee.Terrain.slope(dem)] *)
  ee_slope : EE.Band -> EE.Band;
  (** The points [stratifiedSample] draws: class band, region, points per
      class, scale, seed. *)
  ee_stratifiedPoints : EE.Band -> EE.Geometry -> nat -> Q -> Z -> list EE.Pixel;
  (** The value [randomColumn] gives to a row: seed, row number. *)
  ee_random : Z -> nat -> Q;
  (** [ee.Classifier.smileRandomForest(trees)] in regression mode, fitted
      on rows of predictor values and target. *)
  ee_smileRandomForest : nat -> list (list Q * Q) -> list Q -> Q;
  (** Side on which sorting puts a not-a-number key. *)
  ee_nan_high : bool
}.

(** The catalogue assets the script imports. *)
Record Archive := mkArchive {
  asset_srtm : EE.Image;            (* USGS/SRTMGL1_003 *)
  asset_l8 : EE.ImageCollection;    (* LANDSAT/LC08/C02/T1_L2 *)
  asset_l9 : EE.ImageCollection;    (* LANDSAT/LC09/C02/T1_L2 *)
  asset_s2 : EE.ImageCollection     (* COPERNICUS/S2_SR_HARMONIZED *)
}.

(** What one run of the script is given: the archive, the parameter block
    of the script, and the seed of the sampler. *)
Record Run := mkRun {
  run_archive : Archive;
  run_roi : EE.Geometry;
  run_start : EE.Date;
  run_end : EE.Date;
  run_finalPredictorsSize : nat;
  run_train_ratio : Q;
  run_seed : Z
}.

(** [image.stratifiedSample({scale, numPoints, region, classBand, seed})]:
    the rows read at the drawn points; a point with a masked band is
    dropped. *)
Definition stratifiedSample `{Platform} (i : EE.Image) (scale : Q) (numPoints : nat)
    (region : EE.Geometry) (classBand : string) (seed : Z) : Table.FeatureCollection :=
  omap (Table.read_pixel i)
       (ee_stratifiedPoints (EE.band classBand i) region numPoints scale seed).

(** [t.randomColumn()]: column "random", seed 0. *)
Definition randomColumn `{Platform} (t : Table.FeatureCollection) : Table.FeatureCollection :=
  imap (fun i s => <["random" := ee_random 0 i]> s) t.

(** ** The script *)

Module LST.
Import EE Table.

Section Script.
Context `{Platform} (run : Run).

(** *** Parameters and base data *)

Local Abbreviation roi := (run_roi run).
Local Abbreviation start := (run_start run).
Local Abbreviation end_ := (run_end run).
Local Abbreviation finalPredictorsSize := (run_finalPredictorsSize run).
Local Abbreviation train_ratio := (run_train_ratio run).

Definition label : string := "LST".

Definition srtm : Image := asset_srtm (run_archive run).
Definition l8 : ImageCollection := asset_l8 (run_archive run).
Definition l9 : ImageCollection := asset_l9 (run_archive run).
Definition s2 : ImageCollection := asset_s2 (run_archive run).

Definition cloudMaskLandsat (image : Image) : Image :=
  let qa := band "QA_PIXEL" image in
  let mask :=
    allNonZero
      (mkImage (List.map (fun b => ("QA_PIXEL"%string,
                                    band_eq 0 (band_bitwiseAnd (Z.shiftl 1 b) qa)))
                         [1; 2; 3; 4])
               ∅ None) in
  rename ["LST"%string]
    (updateMask mask
       (subtract (27315 # 100)
          (add 149 (multiply (341802 # 100000000) (select "ST_B10" image))))).

Definition cloudMaskS2 (image : Image) : Image :=
  let qa := band "QA60" image in
  let cloud := 2 ^ 10 in
  let cirrus := 2 ^ 11 in
  let mask := band_and (band_eq 0 (band_bitwiseAnd cloud qa))
                       (band_eq 0 (band_bitwiseAnd cirrus qa)) in
  select_B (divide 10000 (updateMask mask image)).

(** *** Feature engineering *)

Definition filter : Filter :=
  filter_and (filter_bounds roi) (filter_date start end_).

Definition lstLandsat : Image :=
  clip roi (mean (List.map cloudMaskLandsat (List.filter filter (l8 ++ l9)))).

Definition s2Image : Image :=
  clip roi (median (List.map cloudMaskS2 (List.filter filter s2))).

Definition ndmi : Image :=
  rename ["NDMI"%string] (normalizedDifference "B8" "B11" s2Image).
Definition nbr : Image :=
  rename ["NBR"%string] (normalizedDifference "B8" "B12" s2Image).
Definition mndwi2 : Image :=
  rename ["MNDWI2"%string] (normalizedDifference "B3" "B12" s2Image).

Definition tpi : Image :=
  rename ["TPI"%string]
    (map_bands (fun b => band_map2 Qminus b (ee_focalMean 5 b)) srtm).
Definition slope : Image :=
  rename ["slope"%string] (map_bands ee_slope srtm).

Definition strat : Image :=
  let dem := first_band srtm in
  let between lo hi := band_and (band_gte lo dem) (band_lt hi dem) in
  rename ["elevation_class"%string]
    (map_bands
       (fun b =>
          band_where (band_gte 1000 dem) 7
            (band_where (between 500 1000)%Q 6
               (band_where (between 100 500)%Q 5
                  (band_where (between 50 100)%Q 4
                     (band_where (between 10 50)%Q 3
                        (band_where (between 0 10)%Q 2
                           (band_where (band_lt 0 dem) 1 b)))))))
       (constant_image 0)).

Definition features : Image :=
  cat s2Image
      [ndmi; nbr; mndwi2; rename ["elevation"%string] srtm; tpi; slope; strat].

(** *** Training sample and correlation analysis *)

Definition sample : FeatureCollection :=
  stratifiedSample (cat features [lstLandsat]) 30 1000 roi "elevation_class"
                   (run_seed run).

Definition predictors : list string :=
  ["B4"; "B8"; "B11"; "NDMI"; "NBR"; "MNDWI2"; "elevation"; "TPI"; "slope"]%string.

(** The loop pushing each predictor followed by the label. *)
Definition interleave (ps : list string) (l : string) : list string :=
  fold_left (fun acc p => acc ++ [p; l]) ps [].

Definition predictorsLst : list string := interleave predictors label.

(** The analysis, for any list of candidates and any table. *)
Definition corr_of (ps : list string) (t : FeatureCollection) : list Corr :=
  reduceColumns_pearson (length ps) (interleave ps label) t.

Definition correlation_of (ps : list string) (t : FeatureCollection) : list Ranked :=
  imap (fun i b => mkRanked b (pow2 (nth i (corr_of ps t) NaN))) ps.

Definition topCorr_of (k : nat) (ps : list string) (t : FeatureCollection) : list string :=
  aggregate_feature (limit_r2_desc ee_nan_high (k * 2) (correlation_of ps t)).

Definition modelFeatures_of (k : nat) (ps : list string) (t : FeatureCollection)
    : list string :=
  slice0 k (topCorr_of k ps t).

Definition corr : list Corr := corr_of predictors sample.
Definition topCorr : list string := topCorr_of finalPredictorsSize predictors sample.
Definition modelFeatures : list string :=
  modelFeatures_of finalPredictorsSize predictors sample.

(** *** Train split and model *)

(** The table after [sample = sample.randomColumn()]. *)
Definition sample_random : FeatureCollection := randomColumn sample.

Definition train_of (r : Q) (t : FeatureCollection) : FeatureCollection :=
  filter_lte "random" r (randomColumn t).

Definition train : FeatureCollection := train_of train_ratio sample.

Definition model : Classifier :=
  mkClassifier modelFeatures
    (ee_smileRandomForest 50 (training_rows train label modelFeatures)).

(** *** Daily prediction *)

(** The collection gathered for one day. *)
Definition s2day (aoi : Geometry) (day : Date) : ImageCollection :=
  List.map cloudMaskS2
    (List.filter (filter_lt "CLOUDY_PIXEL_PERCENTAGE" 10)
       (List.filter (filter_date day (advance day 1))
          (List.filter (filter_bounds aoi) s2))).

(** The feature stack built for one day. *)
Definition all (aoi : Geometry) (day : Date) : Image :=
  let img := clip aoi (median (s2day aoi day)) in
  let ndmi := rename ["NDMI"%string] (normalizedDifference "B8" "B11" img) in
  let nbr := rename ["NBR"%string] (normalizedDifference "B8" "B12" img) in
  let mndwi2 := rename ["MNDWI2"%string] (normalizedDifference "B3" "B12" img) in
  cat img [ndmi; nbr; mndwi2; rename ["elevation"%string] srtm; tpi; slope].

(** The body of the function mapped over the day offsets. *)
Definition predictDay (startDate : Date) (aoi : Geometry) (offset : Z) : Image :=
  let day := advance startDate offset in
  let hasData := 0 <? size (s2day aoi day) in
  if hasData
  then rename ["LST"%string]
         (set "system:time_start" (inject_Z (millis day))
            (classify model "LST" (all aoi day)))
  else set "noData" 1
         (set "system:time_start" (inject_Z (millis day))
            (rename ["LST"%string] empty_image)).

Definition predictDailyLST (startDate endDate : Date) (aoi : Geometry)
    : ImageCollection :=
  let days := sequence 0 (difference endDate startDate - 1) in
  List.map (predictDay startDate aoi) days.

Definition dailyLST : ImageCollection := predictDailyLST start end_ roi.

(** *** Series for the chart and the animation *)

Definition filtered_of (c : ImageCollection) : ImageCollection :=
  sort "system:time_start" (List.filter (filter_neq "noData" 1) c).

Definition filtered : ImageCollection := filtered_of dailyLST.

End Script.

(** The run the script performs on an archive and a region of interest:
    the year 2024 (days 19723 to 20089 of the epoch), three predictors,
    ratio 0.7, sampler seed 1. *)
Definition script_run (a : Archive) (egypt : Geometry) : Run :=
  mkRun a egypt 19723 20089 3 (7 # 10) 1.

End LST.

(** ** A concrete platform, archive and run

    Small enough to evaluate the script on: a region of four pixels, five
    requested days, Sentinel-2 scenes on four of them. *)

Module Demo.
Import EE Table.

Definition platform : Platform := {|
  ee_focalMean := fun _ b => b;
  ee_slope := fun _ => constant 0;
  ee_stratifiedPoints := fun _ region _ _ _ => region;
  ee_random := fun seed i => (Z.of_nat (Nat.modulo (3 * i) 10) # 10)%Q;
  ee_smileRandomForest := fun _ _ xs => Qsum xs;
  ee_nan_high := true
|}.


Definition roi : Geometry := [(0, 0); (0, 1); (1, 0); (1, 1)].

(** A scene: acquisition day, cloud percentage, and a value for every
    band of a uniform raster. *)
Definition scene (day : Date) (cloudy : Q) (bs : list (string * Q)) : Image :=
  mkImage (List.map (fun nv => (fst nv, constant (snd nv))) bs)
          (<["CLOUDY_PIXEL_PERCENTAGE" := cloudy]>
             (<["system:time_start" := inject_Z (millis day)]> ∅))
          (Some roi).

Definition s2_bands (k : Q) : list (string * Q) :=
  [("B3", 1000 * k); ("B4", 1500 * k); ("B8", 3000 * k);
   ("B11", 2000 * k); ("B12", 500 * k); ("AOT", 7); ("QA60", 0)]%string%Q.

Definition archive : Archive := {|
  asset_srtm := mkImage [("elevation"%string, fun p => Some (inject_Z (40 * fst p + 30 * snd p)))] ∅ None;
  asset_l8 := [scene 10 0 [("ST_B10", 44000); ("QA_PIXEL", 0)]%string%Q];
  asset_l9 := [scene 13 0 [("ST_B10", 45000); ("QA_PIXEL", 0)]%string%Q];
  asset_s2 := [scene 10 2 (s2_bands 1); scene 11 5 (s2_bands 2);
               scene 12 50 (s2_bands 1); scene 13 (1 # 2) (s2_bands 3);
               scene 13 3 (s2_bands 1); scene 14 9 (s2_bands 2);
               scene 14 40 (s2_bands 3)]
|}.

(** Days 10 to 14 are requested; the only scene of day 12 is too cloudy. *)
Definition run : Run := {|
  run_archive := archive;
  run_roi := roi;
  run_start := 10;
  run_end := 15;
  run_finalPredictorsSize := 3;
  run_train_ratio := 7 # 10;
  run_seed := 1
|}.

(** A run whose training period is day 14 alone. *)
Definition run14 : Run := {|
  run_archive := archive;
  run_roi := roi;
  run_start := 14;
  run_end := 15;
  run_finalPredictorsSize := 3;
  run_train_ratio := 7 # 10;
  run_seed := 1
|}.

(** A run whose training period is day 11 alone, a day with one clear
    scene. *)
Definition run11 : Run := {|
  run_archive := archive;
  run_roi := roi;
  run_start := 11;
  run_end := 12;
  run_finalPredictorsSize := 3;
  run_train_ratio := 7 # 10;
  run_seed := 1
|}.

(** A table with a candidate that follows the label exactly (A), one
    that is uncorrelated with it (B) and one that never varies (C). *)
Definition row (a b c l : Q) : Sample :=
  list_to_map [("A", a); ("B", b); ("C", c); ("LST", l)]%string.

Definition table : FeatureCollection :=
  [row 1 1 5 10; row 2 (-1) 5 20; row 3 (-1) 5 30; row 4 1 5 40].

End Demo.

(** ** Vocabulary of the properties *)

Module Series.
Import EE.

(** The days of the half-open range from [s] to [e]. *)
Definition requested_days (s e : Date) : list Date :=
  List.map (fun i => s + Z.of_nat i) (seq 0 (Z.to_nat (e - s))).

(** The time stamp an image carries. *)
Definition time_start (i : Image) : option Q := get "system:time_start" i.

(** The time stamp of a day, as the property value. *)
Definition stamp (d : Date) : Q := inject_Z (millis d).

(** An image is a no-data placeholder when its flag is 1; this is the
    test the series filter negates. *)
Definition flagged_noData (i : Image) : bool := filter_eq "noData" 1 i.

(** Ascending order of time stamps, as the sort compares them. *)
Definition time_le (i j : Image) : Prop :=
  key_leb (time_start i) (time_start j) = true.

(** A band without any pixel value. *)
Definition fully_masked (b : Band) : Prop := forall p, b p = None.

(** The image carries the number [n] of matched source scenes as a
    property, under the name of the data model or under the name the
    other series scripts of the repository give it. *)
Definition carries_count (i : Image) (n : Q) : Prop :=
  get "sourceImageCount" i = Some n \/ get "count" i = Some n.

(** Strict order of two time stamps that are both present. *)
Definition stamp_before (a b : option Q) : Prop :=
  match a, b with
  | Some x, Some y => (x < y)%Q
  | _, _ => False
  end.

End Series.

Module Selector.
Import Table.

(** The score the ranking gives a candidate: the squared correlation of
    its column with the label column over the rows of the table. *)
Definition score (t : FeatureCollection) (b : string) : option Q :=
  pow2 (pearsonsCorrelation (rows b LST.label t)).

(** The candidate does not vary over the rows of the table. *)
Definition zero_variance (t : FeatureCollection) (b : string) : Prop :=
  (scaled_variance (List.map fst (rows b LST.label t)) == 0)%Q.

(** Descending order of scores, as the limit compares them. *)
Definition score_ge (nan_high : bool) (a b : Ranked) : bool :=
  score_leb nan_high (r2 b) (r2 a).

(** The whole ranking, best score first. *)
Definition ranked (nan_high : bool) (c : list Ranked) : list Ranked :=
  isort (score_ge nan_high) c.

End Selector.

Module Columns.

(** Sums over two columns given as a list of rows: the sum of the
    products and the sums of the squares of each column. *)
Definition dot (uv : list (Q * Q)) : Q :=
  Qsum (List.map (fun p => (fst p * snd p)%Q) uv).
Definition norm1 (uv : list (Q * Q)) : Q :=
  Qsum (List.map (fun p => (fst p * fst p)%Q) uv).
Definition norm2 (uv : list (Q * Q)) : Q :=
  Qsum (List.map (fun p => (snd p * snd p)%Q) uv).

(** The rows with both columns scaled by [k] and shifted to the origin
    [(cx, cy)]. *)
Definition centred (k cx cy : Q) (r : list (Q * Q)) : list (Q * Q) :=
  List.map (fun xy => (k * fst xy - cx, k * snd xy - cy)%Q) r.

End Columns.

Module Split.
Import Table.

(** The train filter on a row: its random number is at most the ratio. *)
Definition in_train (r : Q) (s : Sample) : bool :=
  match s !! "random"%string with Some x => Qle_bool x r | None => false end.

(** Follows the words of the specification: the test subset is made of
    the rows of the table with its random column that the train filter
    rejects.  The script builds the train subset only. *)
Definition spec_test_of `{Platform} (r : Q) (t : FeatureCollection) : FeatureCollection :=
  List.filter (fun s => negb (in_train r s)) (randomColumn t).

End Split.

Module Stack.
Import EE.

(** The scenes a filter keeps, before cloud masking: the sources of the
    training composite and of the composite of a day. *)
Definition training_sources (run : Run) : ImageCollection :=
  List.filter (LST.filter run) (LST.s2 run).

Definition day_sources (run : Run) (aoi : Geometry) (day : Date) : ImageCollection :=
  List.filter (filter_lt "CLOUDY_PIXEL_PERCENTAGE" 10)
    (List.filter (filter_date day (advance day 1))
       (List.filter (filter_bounds aoi) (LST.s2 run))).

(** The composite of a day. *)
Definition day_composite (run : Run) (aoi : Geometry) (day : Date) : Image :=
  clip aoi (median (LST.s2day run aoi day)).

(** The names of the derived bands, in stack order. *)
Definition derived_names : list string :=
  ["NDMI"; "NBR"; "MNDWI2"; "elevation"; "TPI"; "slope"]%string.

End Stack.

Module Catalogue.
Import EE.




End Catalogue.

(** A concrete catalogue whose rasters vary over the region, at two
    moments: as a first run finds it, and later, when further scenes have
    been added to it. *)
Module Gradient.
Import EE.

(** A band that is a plane: value a + b x + c y at the pixel (x, y). *)
Definition plane (a b c : Z) : Band :=
  fun p => Some (inject_Z (a + b * fst p + c * snd p)).

Definition scene (g : Geometry) (day : Date) (cloudy : Q)
    (bs : list (string * Band)) : Image :=
  mkImage bs
          (<["CLOUDY_PIXEL_PERCENTAGE" := cloudy]>
             (<["system:time_start" := inject_Z (millis day)]> ∅))
          (Some g).

Definition s2_scene (g : Geometry) (day : Date) (k : Z) : Image :=
  scene g day 1
    [("B3", plane (1000 * k) 100 0); ("B4", plane (1000 * k) 100 200);
     ("B8", plane 3000 0 0); ("B11", plane 2000 100 (-100));
     ("B12", plane 500 0 0); ("QA60", plane 0 0 0)]%string.

Definition landsat_scene (g : Geometry) (day : Date) (k : Z) : Image :=
  scene g day 0
    [("ST_B10", plane (44000 + k) 1000 2000); ("QA_PIXEL", plane 0 0 0)]%string.


Definition archive : Archive := {|
  asset_srtm := asset_srtm Demo.archive;
  asset_l8 := [landsat_scene Demo.roi 11 0];
  asset_l9 := [];
  asset_s2 := [s2_scene Demo.roi 12 1; s2_scene Demo.roi 13 2]
|}.


(** Days 10 to 14, three predictors, ratio 7/10. *)
Definition run : Run := {|
  run_archive := archive;
  run_roi := Demo.roi;
  run_start := 10;
  run_end := 15;
  run_finalPredictorsSize := 3;
  run_train_ratio := 7 # 10;
  run_seed := 1
|}.


End Gradient.

(** ** The monthly false colour script *)

Module Calendar.
Import EE.

(** A calendar date at midnight UTC, as [ee.Date.fromYMD] builds it. *)
Record YMD := mkYMD { yr : Z; mo : Z; dy : Z }.

Definition is_leap (y : Z) : bool :=
  (y mod 4 =? 0) && (negb (y mod 100 =? 0) || (y mod 400 =? 0)).

(** Days from the epoch to the first of January of a year. *)
Definition days_before_year (y : Z) : Z :=
  365 * (y - 1970) + (y - 1969) / 4 - (y - 1901) / 100 + (y - 1601) / 400.

Definition month_lengths (leap : bool) : list Z :=
  [31; if leap then 29 else 28; 31; 30; 31; 30; 31; 31; 30; 31; 30; 31].

Definition days_in_month (y m : Z) : Z :=
  nth (Z.to_nat (m - 1)) (month_lengths (is_leap y)) 31.

(** Days from the first of January to the first of a month. *)
Definition days_before_month (y m : Z) : Z :=
  fold_right Z.add 0 (firstn (Z.to_nat (m - 1)) (month_lengths (is_leap y))).

(** The day number of a calendar date. *)
Definition to_days (d : YMD) : Date :=
  days_before_year (yr d) + days_before_month (yr d) (mo d) + (dy d - 1).

(** [ee.Date.fromYMD(y, m, d)] *)
Definition fromYMD (y m d : Z) : YMD := mkYMD y m d.

(** [date.advance(1, 'month')]: the same day of the next month, the year
    carried after December and the day held within the month. *)
Definition advance_month (d : YMD) : YMD :=
  let y := if mo d =? 12 then yr d + 1 else yr d in
  let m := if mo d =? 12 then 1 else mo d + 1 in
  mkYMD y m (Z.min (dy d) (days_in_month y m)).

End Calendar.

Module FalseColor.
Import EE Table Calendar.

(** [image.select([n1, n2, ...])]: the listed bands in the listed order. *)
Definition select_list (names : list string) (i : Image) : Image :=
  mkImage (List.map (fun n => (n, band n i)) names) (props i) (footprint i).

(** [dest.copyProperties(source, [k1, ...])] *)
Definition copyProperties (source : Image) (keys : list string) (dest : Image)
    : Image :=
  mkImage (bands dest)
          (fold_right (fun k m => match props source !! k with
                                  | Some v => <[k := v]> m
                                  | None => m
                                  end)
                      (props dest) keys)
          (footprint dest).

(** [image.set({k1: v1, ...})] *)
Definition set_all (kvs : list (string * Q)) (i : Image) : Image :=
  fold_left (fun img kv => set (fst kv) (snd kv) img) kvs i.

Section Script.
Context (archive : Archive).

Definition maskS2clouds (image : Image) : Image :=
  let qa := band "QA60" image in
  let cloudBitMask := 2 ^ 10 in
  let cirrusBitMask := 2 ^ 11 in
  let mask := band_and (band_eq 0 (band_bitwiseAnd cloudBitMask qa))
                       (band_eq 0 (band_bitwiseAnd cirrusBitMask qa)) in
  copyProperties image ["system:time_start"%string]
    (select_list ["B3"; "B4"; "B8"]%string
       (divide 10000 (updateMask mask image))).

(** The collection [s2] of one year. *)
Definition s2_of_year (aoi : Geometry) (year : Z) : ImageCollection :=
  List.map maskS2clouds
    (List.filter (filter_lt "CLOUDY_PIXEL_PERCENTAGE" 10)
       (List.filter (filter_date (to_days (fromYMD year 1 1))
                                 (to_days (fromYMD year 12 31)))
          (List.filter (filter_bounds aoi) (asset_s2 archive)))).

(** The collection of one month of a year. *)
Definition month_collection (aoi : Geometry) (year month : Z) : ImageCollection :=
  let start := fromYMD year month 1 in
  let end_ := advance_month start in
  List.filter (filter_date (to_days start) (to_days end_)) (s2_of_year aoi year).

(** The body of the function mapped over the months of a year. *)
Definition month_image (aoi : Geometry) (year month : Z) : Image :=
  let start := fromYMD year month 1 in
  let collection := month_collection aoi year month in
  let composite := clip aoi (median collection) in
  let count := size collection in
  if 0 <? count
  then set_all [("year"%string, inject_Z year);
                ("month"%string, inject_Z month);
                ("count"%string, inject_Z count);
                ("system:time_start"%string, inject_Z (millis (to_days start)))]
               composite
  else set_all [("year"%string, inject_Z year);
                ("month"%string, inject_Z month);
                ("count"%string, 0%Q);
                ("noData"%string, 1%Q);
                ("system:time_start"%string, inject_Z (millis (to_days start)))]
               empty_image.

Definition monthlyFalseColorCollection (startYear endYear : Z) (aoi : Geometry)
    : ImageCollection :=
  let years := sequence startYear endYear in
  let allImages :=
    List.map (fun year => List.map (month_image aoi year) (sequence 1 12)) years in
  fold_left (fun prev ic => prev ++ ic) allImages [].

(** The series [createFalseColorGif] animates. *)
Definition gif_series (images : ImageCollection) : ImageCollection :=
  sort "system:time_start" (List.filter (filter_neq "noData" 1) images).

End Script.
End FalseColor.

(** A second concrete archive: scenes on 30 and 31 December 1970 (days
    363 and 364) besides the scenes of January. *)
Module Demo2.
Import EE.

Definition archive : Archive := {|
  asset_srtm := asset_srtm Demo.archive;
  asset_l8 := [];
  asset_l9 := [];
  asset_s2 := asset_s2 Demo.archive
              ++ [Demo.scene 363 1 (Demo.s2_bands 1);
                  Demo.scene 364 1 (Demo.s2_bands 2)]
|}.

End Demo2.

(** * Properties *)

(** ** Sorting and sequences *)

Section IsortFacts.
Context {A : Type} (leb : A -> A -> bool).

Lemma insert_sorted_perm (x : A) (l : list A) :
  Permutation (insert_sorted leb x l) (x :: l).
Proof.
  induction l as [|y l IH]; simpl; [reflexivity|].
  destruct (leb x y); [reflexivity|].
  rewrite IH. apply perm_swap.
Qed.

Lemma isort_perm (l : list A) : Permutation (isort leb l) l.
Proof.
  induction l as [|x l IH]; simpl; [constructor|].
  rewrite insert_sorted_perm. now constructor.
Qed.

Hypothesis leb_total : forall x y, leb x y = true \/ leb y x = true.

Lemma insert_sorted_Sorted (x : A) (l : list A) :
  Sorted (fun a b => leb a b = true) l ->
  Sorted (fun a b => leb a b = true) (insert_sorted leb x l).
Proof.
  induction l as [|y l IH]; simpl; intros Hs.
  - repeat constructor.
  - destruct (leb x y) eqn:E.
    + constructor; [assumption | constructor; assumption].
    + inversion Hs as [|? ? Hs' Hhd]; subst.
      constructor; [auto|].
      destruct l as [|z l]; simpl in *.
      * constructor. destruct (leb_total x y); congruence.
      * destruct (leb x z); constructor.
        -- destruct (leb_total x y); congruence.
        -- now inversion Hhd.
Qed.

Lemma isort_Sorted (l : list A) :
  Sorted (fun a b => leb a b = true) (isort leb l).
Proof.
  induction l as [|x l IH]; simpl; [constructor|].
  now apply insert_sorted_Sorted.
Qed.

Hypothesis leb_trans :
  forall x y z, leb x y = true -> leb y z = true -> leb x z = true.

Lemma isort_StronglySorted (l : list A) :
  StronglySorted (fun a b => leb a b = true) (isort leb l).
Proof.
  apply Sorted_StronglySorted; [|apply isort_Sorted].
  intros x y z. apply leb_trans.
Qed.
End IsortFacts.

Lemma StronglySorted_map_seq {B : Type} (R : B -> B -> Prop) (f : nat -> B) :
  (forall i j, (i < j)%nat -> R (f i) (f j)) ->
  forall n a, StronglySorted R (List.map f (seq a n)).
Proof.
  intros Hf n. induction n as [|n IH]; intros a; simpl; constructor.
  - apply IH.
  - apply List.Forall_forall. intros y Hy.
    apply in_map_iff in Hy as (j & <- & Hj).
    apply in_seq in Hj. apply Hf. lia.
Qed.

Lemma StronglySorted_NoDup {B : Type} (R : B -> B -> Prop) (l : list B) :
  (forall x, ~ R x x) -> StronglySorted R l -> NoDup l.
Proof.
  intros Hirr Hs. induction Hs as [|x l Hs IH Hall]; constructor; [|assumption].
  intros Hin. rewrite Forall_forall in Hall.
  apply (Hirr x). now apply Hall.
Qed.



(** In a sorted list an earlier entry is related to every later one. *)
Lemma StronglySorted_lookup {B : Type} (R : B -> B -> Prop) (l : list B) :
  StronglySorted R l ->
  forall (m n : nat) (a b : B),
    (m < n)%nat -> l !! m = Some a -> l !! n = Some b -> R a b.
Proof.
  induction 1 as [|x l Hs IH Hall]; intros m n a b Hmn Ha Hb.
  - rewrite lookup_nil in Ha. discriminate.
  - destruct n as [|n]; [lia|]. simpl in Hb.
    destruct m as [|m]; simpl in Ha.
    + injection Ha as <-. rewrite List.Forall_forall in Hall.
      apply Hall. apply list_elem_of_In. eapply list_elem_of_lookup_2, Hb.
    + apply (IH m n); [lia|assumption|assumption].
Qed.

Lemma Qle_bool_total (x y : Q) : Qle_bool x y = true \/ Qle_bool y x = true.
Proof.
  destruct (Qlt_le_dec y x) as [Hlt|Hle].
  - right. apply Qle_bool_iff. now apply Qlt_le_weak.
  - left. now apply Qle_bool_iff.
Qed.

Lemma Qle_bool_trans (x y z : Q) :
  Qle_bool x y = true -> Qle_bool y z = true -> Qle_bool x z = true.
Proof.
  rewrite !Qle_bool_iff. apply Qle_trans.
Qed.

(** ** The day sequence *)

Module SeriesFacts.
Import EE Table Series.

Lemma sequence_days (s e : Date) :
  List.map (advance s) (sequence 0 (difference e s - 1)) = requested_days s e.
Proof.
  unfold sequence, requested_days, difference, advance.
  replace (e - s - 1 - 0 + 1) with (e - s) by lia.
  rewrite List.map_map. apply List.map_ext. intros i. lia.
Qed.

Lemma length_requested_days (s e : Date) :
  length (requested_days s e) = Z.to_nat (e - s).
Proof. unfold requested_days. now rewrite length_map, length_seq. Qed.

Lemma in_requested_days (s e d : Date) :
  In d (requested_days s e) <-> s <= d < e.
Proof.
  unfold requested_days. rewrite in_map_iff. split.
  - intros (i & <- & Hi). apply in_seq in Hi. lia.
  - intros Hd. exists (Z.to_nat (d - s)). split; [lia|].
    apply in_seq. lia.
Qed.

Lemma stamp_lt (a b : Date) : a < b -> (stamp a < stamp b)%Q.
Proof.
  intros Hab. unfold stamp, millis, millis_per_day.
  rewrite <- Zlt_Qlt. lia.
Qed.

Lemma stamp_inj (a b : Date) : stamp a = stamp b -> a = b.
Proof.
  unfold stamp, millis, millis_per_day, inject_Z. intros Heq.
  injection Heq. lia.
Qed.

(** Both branches of the daily step stamp the image with its day. *)
Lemma time_start_predictDay `{Platform} (run : Run) (s : Date) (aoi : Geometry)
    (offset : Z) :
  time_start (LST.predictDay run s aoi offset) = Some (stamp (advance s offset)).
Proof.
  unfold LST.predictDay, time_start, get, stamp.
  destruct (0 <? size _); simpl.
  - apply lookup_insert_eq.
  - rewrite lookup_insert_ne by discriminate. apply lookup_insert_eq.
Qed.

Lemma time_start_series `{Platform} (run : Run) (s e : Date) (aoi : Geometry) :
  List.map time_start (LST.predictDailyLST run s e aoi)
  = List.map (fun d => Some (stamp d)) (requested_days s e).
Proof.
  unfold LST.predictDailyLST. rewrite <- sequence_days, !List.map_map.
  apply List.map_ext. intros off. apply time_start_predictDay.
Qed.

(** The flag is set exactly on the days without a matching scene. *)
Lemma flagged_predictDay `{Platform} (run : Run) (s : Date) (aoi : Geometry)
    (offset : Z) :
  flagged_noData (LST.predictDay run s aoi offset) = true
  <-> size (LST.s2day run aoi (advance s offset)) = 0.
Proof.
  unfold LST.predictDay, flagged_noData, filter_eq, get.
  destruct (0 <? size _) eqn:E; simpl.
  - rewrite lookup_insert_ne by discriminate.
    apply Z.ltb_lt in E. split; [|lia].
    destruct (_ !! _) eqn:E'; [|discriminate].
    unfold LST.all, cat, clip, median, composite in E'.
    destruct (LST.s2day _ _ _); simpl in E'; rewrite lookup_empty in E'; discriminate.
  - rewrite lookup_insert_eq. apply Z.ltb_ge in E.
    unfold size in *. split; [lia|reflexivity].
Qed.

End SeriesFacts.

(** ** The prediction series *)

Module SeriesTheorems.
Import EE Table Series SeriesFacts.

Lemma length_series `{Platform} (run : Run) (s e : Date) (aoi : Geometry) :
  length (LST.predictDailyLST run s e aoi) = Z.to_nat (e - s).
Proof.
  rewrite <- (length_map time_start), time_start_series, length_map.
  apply length_requested_days.
Qed.

(** The script as it stands asks for the 366 days of 2024. *)
Remark script_series_length `{Platform} (a : Archive) (egypt : Geometry) :
  length (LST.dailyLST (LST.script_run a egypt)) = 366%nat.
Proof. unfold LST.dailyLST. now rewrite length_series. Qed.

(** C1.  For every requested range and region the collection returned by
    the daily prediction has exactly one image per requested day, in day
    order: the time stamps are those of the days start, start + 1, ...
    without gap, strictly increasing and pairwise distinct; the entry of
    a day is present whether or not the day has imagery, flagged as a
    placeholder exactly when it has none. *)
Theorem C1_full_length_series `{Platform} (run : Run) (s e : Date)
    (aoi : Geometry) :
  let series : list Image := LST.predictDailyLST run s e aoi in
  let stamps := List.map time_start series in
  length series = length (requested_days s e)
  /\ stamps = List.map (fun d => Some (stamp d)) (requested_days s e)
  /\ StronglySorted stamp_before stamps
  /\ NoDup stamps
  /\ (forall (k : nat) (d : Date),
        requested_days s e !! k = Some d ->
        exists img, series !! k = Some img
                    /\ time_start img = Some (stamp d)
                    /\ (flagged_noData img = true
                        <-> size (LST.s2day run aoi d) = 0)).
Proof.
  intros series stamps.
  assert (Hst : stamps = List.map (fun d => Some (stamp d)) (requested_days s e))
    by apply time_start_series.
  assert (Hsorted : StronglySorted stamp_before stamps).
  { rewrite Hst. unfold requested_days. rewrite List.map_map.
    apply StronglySorted_map_seq. intros i j Hij. simpl.
    apply stamp_lt. lia. }
  split; [|split; [exact Hst|split; [exact Hsorted|split]]].
  - unfold series. now rewrite length_series, length_requested_days.
  - apply (StronglySorted_NoDup stamp_before); [|exact Hsorted].
    intros [x|]; simpl; [apply Qlt_irrefl|tauto].
  - intros k d Hk. rewrite <- sequence_days in Hk.
    change (List.map (advance s) ?l) with (advance s <$> l) in Hk.
    rewrite list_lookup_fmap in Hk.
    destruct (sequence 0 (difference e s - 1) !! k) as [off|] eqn:E;
      [|discriminate].
    injection Hk as <-.
    exists (LST.predictDay run s aoi off). split; [|split].
    + unfold series, LST.predictDailyLST. cbv zeta.
      change (List.map ?f ?l) with (f <$> l).
      now rewrite list_lookup_fmap, E.
    + apply time_start_predictDay.
    + apply flagged_predictDay.
Qed.

(** C10.  When the end date is after the start date the requested units
    are the days of the half-open range: the engine returns end - start
    images, stamped start, start + 1, ..., end - 1 in this order; a day
    has an image exactly when it lies in the range, and the end date has
    none. *)
Theorem C10_half_open_range `{Platform} (run : Run) (s e : Date)
    (aoi : Geometry) :
  s < e ->
  let series := LST.predictDailyLST run s e aoi in
  Z.of_nat (length series) = e - s
  /\ List.map time_start series
     = List.map (fun i => Some (stamp (s + Z.of_nat i))) (seq 0 (Z.to_nat (e - s)))
  /\ (forall d, In (Some (stamp d)) (List.map time_start series) <-> s <= d < e)
  /\ ~ In (Some (stamp e)) (List.map time_start series)
  /\ hd_error (List.map time_start series) = Some (Some (stamp s))
  /\ List.last (List.map time_start series) None = Some (stamp (e - 1)).
Proof.
  intros Hse series.
  assert (Hst := time_start_series run s e aoi). fold series in Hst.
  assert (Hin : forall d, In (Some (stamp d)) (List.map time_start series)
                          <-> s <= d < e).
  { intros d. rewrite Hst, <- in_requested_days, in_map_iff. split.
    - intros (d' & Heq & Hd').
      assert (Heq' : stamp d' = stamp d) by congruence.
      apply stamp_inj in Heq'. now subst.
    - intros Hd. now exists d. }
  split; [|split; [|split; [exact Hin|split; [|split]]]].
  - unfold series. rewrite length_series. lia.
  - rewrite Hst. unfold requested_days. now rewrite List.map_map.
  - intros Hc. apply Hin in Hc. lia.
  - rewrite Hst. unfold requested_days.
    destruct (Z.to_nat (e - s)) as [|n] eqn:E; [lia|]. simpl.
    now rewrite Z.add_0_r.
  - rewrite Hst. unfold requested_days.
    destruct (Z.to_nat (e - s)) as [|n] eqn:E; [lia|].
    rewrite seq_S, !List.map_app. simpl. rewrite List.last_last.
    replace (s + Z.of_nat n) with (e - 1) by lia. reflexivity.
Qed.

(** The half-open range of the concrete run: days 10 to 14. *)
Lemma C10_half_open_range_witness :
  10 < 15
  /\ let series := LST.predictDailyLST (H := Demo.platform) Demo.run 10 15 Demo.roi in
     Z.of_nat (length series) = 15 - 10
     /\ List.map time_start series
        = List.map (fun i => Some (stamp (10 + Z.of_nat i))) (seq 0 (Z.to_nat (15 - 10)))
     /\ (forall d, In (Some (stamp d)) (List.map time_start series) <-> 10 <= d < 15)
     /\ ~ In (Some (stamp 15)) (List.map time_start series)
     /\ hd_error (List.map time_start series) = Some (Some (stamp 10))
     /\ List.last (List.map time_start series) None = Some (stamp (15 - 1)).
Proof.
  split; [lia|].
  apply (C10_half_open_range (H := Demo.platform) Demo.run 10 15 Demo.roi).
  lia.
Defined.


(** The third requested day of the concrete run (day 12, without a
    usable scene) still has its entry. *)
Lemma C1_full_length_series_witness :
  requested_days 10 15 !! 2%nat = Some 12
  /\ exists img,
       (LST.predictDailyLST (H := Demo.platform) Demo.run 10 15 Demo.roi
          : list Image) !! 2%nat = Some img
       /\ time_start img = Some (stamp 12)
       /\ (flagged_noData img = true
           <-> size (LST.s2day Demo.run Demo.roi 12) = 0).
Proof.
  split; [reflexivity|].
  destruct (C1_full_length_series (H := Demo.platform) Demo.run 10 15 Demo.roi)
    as (_ & _ & _ & _ & Hk).
  apply Hk. reflexivity.
Defined.

(** ** The two outcomes of a day *)

Lemma props_all `{Platform} (run : Run) (aoi : Geometry) (day : Date) :
  props (LST.all run aoi day) = ∅.
Proof.
  unfold LST.all, cat, clip, median, composite. simpl.
  now destruct (LST.s2day run aoi day).
Qed.

Lemma predictDay_noData `{Platform} (run : Run) (s : Date) (aoi : Geometry)
    (offset : Z) :
  size (LST.s2day run aoi (advance s offset)) = 0 ->
  LST.predictDay run s aoi offset
  = set "noData" 1
      (set "system:time_start" (stamp (advance s offset))
         (rename ["LST"%string] empty_image)).
Proof. intros Hsize. unfold LST.predictDay. cbv zeta. now rewrite Hsize. Qed.

Lemma predictDay_valid `{Platform} (run : Run) (s : Date) (aoi : Geometry)
    (offset : Z) :
  0 < size (LST.s2day run aoi (advance s offset)) ->
  LST.predictDay run s aoi offset
  = rename ["LST"%string]
      (set "system:time_start" (stamp (advance s offset))
         (classify (LST.model run) "LST" (LST.all run aoi (advance s offset)))).
Proof.
  intros Hsize. unfold LST.predictDay. cbv zeta.
  apply Z.ltb_lt in Hsize. now rewrite Hsize.
Qed.

Lemma props_valid `{Platform} (run : Run) (s : Date) (aoi : Geometry)
    (offset : Z) :
  0 < size (LST.s2day run aoi (advance s offset)) ->
  props (LST.predictDay run s aoi offset)
  = {["system:time_start"%string := stamp (advance s offset)]}.
Proof.
  intros Hsize. rewrite predictDay_valid by assumption.
  unfold rename, set, classify. cbn [props]. now rewrite props_all.
Qed.

Lemma no_count_of_props (i : Image) (n : Q) :
  props i !! "sourceImageCount"%string = None ->
  props i !! "count"%string = None ->
  ~ carries_count i n.
Proof. intros H1 H2 [Hc|Hc]; unfold get in Hc; congruence. Qed.

(** C2 (as the script has it).  A day whose query matches no scene
    yields an image flagged noData = 1 that keeps the time stamp of the
    day and whose only band, LST, has no pixel value; the flag and the
    time stamp are its only properties, so no count is recorded. *)
Theorem C2_noData_step `{Platform} (run : Run) (s : Date) (aoi : Geometry)
    (offset : Z) :
  size (LST.s2day run aoi (advance s offset)) = 0 ->
  let step := LST.predictDay run s aoi offset in
  flagged_noData step = true
  /\ get "noData" step = Some 1%Q
  /\ time_start step = Some (stamp (advance s offset))
  /\ bandNames step = ["LST"%string]
  /\ fully_masked (band "LST" step)
  /\ props step
     = <["noData"%string := 1%Q]>
         {["system:time_start"%string := stamp (advance s offset)]}
  /\ (forall n, ~ carries_count step n).
Proof.
  intros Hsize step.
  assert (Hstep := predictDay_noData run s aoi offset Hsize). fold step in Hstep.
  split; [now apply flagged_predictDay|].
  rewrite Hstep. repeat split.
  intros n. now apply no_count_of_props.
Qed.

Lemma C2_noData_step_witness :
  size (LST.s2day Demo.run Demo.roi (advance 10 2)) = 0
  /\ let step := LST.predictDay (H := Demo.platform) Demo.run 10 Demo.roi 2 in
     flagged_noData step = true
     /\ get "noData" step = Some 1%Q
     /\ time_start step = Some (stamp (advance 10 2))
     /\ bandNames step = ["LST"%string]
     /\ fully_masked (band "LST" step)
     /\ props step
        = <["noData"%string := 1%Q]>
            {["system:time_start"%string := stamp (advance 10 2)]}
     /\ (forall n, ~ carries_count step n).
Proof.
  split; [reflexivity|].
  apply (C2_noData_step (H := Demo.platform) Demo.run 10 Demo.roi 2).
  reflexivity.
Defined.

(** C2 as stated fails: on day 12 of the concrete run the query matches
    no scene, and the image of the day does not carry a count of 0. *)
Lemma C2_count_counterexample :
  size (LST.s2day Demo.run Demo.roi (advance 10 2)) = 0
  /\ ~ carries_count (LST.predictDay (H := Demo.platform) Demo.run 10 Demo.roi 2) 0.
Proof.
  split; [reflexivity|].
  apply no_count_of_props;
    now rewrite (predictDay_noData (H := Demo.platform) Demo.run 10 Demo.roi 2).
Qed.

(** C3 (as the script has it).  A day with at least one matching scene
    yields an image without the noData flag, stamped with the day, whose
    only band has the configured name LST and holds, pixel by pixel, the
    model applied to the feature stack of the day; the time stamp is its
    only property, so no count is recorded. *)
Theorem C3_valid_step `{Platform} (run : Run) (s : Date) (aoi : Geometry)
    (offset : Z) :
  0 < size (LST.s2day run aoi (advance s offset)) ->
  let day := advance s offset in
  let step := LST.predictDay run s aoi offset in
  flagged_noData step = false
  /\ get "noData" step = None
  /\ time_start step = Some (stamp day)
  /\ bandNames step = [LST.label]
  /\ (forall p,
        band LST.label step p
        = predict (LST.model run)
            <$> mapM (fun n => band n (LST.all run aoi day) p)
                     (inputs (LST.model run)))
  /\ props step = {["system:time_start"%string := stamp day]}
  /\ (forall n, ~ carries_count step n).
Proof.
  intros Hsize day step.
  assert (Hstep := predictDay_valid run s aoi offset Hsize).
  assert (Hprops := props_valid run s aoi offset Hsize).
  fold step day in Hstep, Hprops.
  assert (Hflag : get "noData" step = None).
  { unfold get. rewrite Hprops. reflexivity. }
  split; [|split; [exact Hflag|split; [|split; [|split; [|split]]]]].
  - unfold flagged_noData, filter_eq. now rewrite Hflag.
  - apply time_start_predictDay.
  - now rewrite Hstep.
  - intros p. now rewrite Hstep.
  - exact Hprops.
  - intros n. apply no_count_of_props; now rewrite Hprops.
Qed.

Lemma C3_valid_step_witness :
  0 < size (LST.s2day Demo.run Demo.roi (advance 10 3))
  /\ let day := advance 10 3 in
     let step := LST.predictDay (H := Demo.platform) Demo.run 10 Demo.roi 3 in
     flagged_noData step = false
     /\ get "noData" step = None
     /\ time_start step = Some (stamp day)
     /\ bandNames step = [LST.label]
     /\ (forall p,
           band LST.label step p
           = predict (LST.model (H := Demo.platform) Demo.run)
               <$> mapM (fun n => band n (LST.all (H := Demo.platform) Demo.run Demo.roi day) p)
                        (inputs (LST.model (H := Demo.platform) Demo.run)))
     /\ props step = {["system:time_start"%string := stamp day]}
     /\ (forall n, ~ carries_count step n).
Proof.
  split; [reflexivity|].
  apply (C3_valid_step (H := Demo.platform) Demo.run 10 Demo.roi 3).
  reflexivity.
Defined.

(** C3 as stated fails: day 13 of the concrete run has two matching
    scenes, and the image of the day carries no count at all. *)
Lemma C3_count_counterexample :
  size (LST.s2day Demo.run Demo.roi (advance 10 3)) = 2
  /\ forall n, ~ carries_count
                  (LST.predictDay (H := Demo.platform) Demo.run 10 Demo.roi 3) n.
Proof.
  split; [reflexivity|].
  intros n. apply no_count_of_props;
    now rewrite (props_valid (H := Demo.platform) Demo.run 10 Demo.roi 3).
Qed.

End SeriesTheorems.

(** ** The series views *)

Module AssemblerTheorems.
Import EE Table Series.

Lemma key_leb_total (a b : option Q) : key_leb a b = true \/ key_leb b a = true.
Proof.
  destruct a as [x|], b as [y|]; simpl; auto. apply Qle_bool_total.
Qed.

Lemma key_leb_trans (a b c : option Q) :
  key_leb a b = true -> key_leb b c = true -> key_leb a c = true.
Proof.
  destruct a as [x|], b as [y|], c as [z|]; simpl; auto; try discriminate.
  apply Qle_bool_trans.
Qed.

Lemma filter_split_length {A : Type} (f : A -> bool) (l : list A) :
  length l = (length (List.filter (fun x => negb (f x)) l)
              + length (List.filter f l))%nat.
Proof.
  induction l as [|x l IH]; simpl; [reflexivity|].
  destruct (f x); simpl; lia.
Qed.

(** The placeholder test reads the flag as a number: an image is flagged
    exactly when it carries the property [noData] with value 1. *)
Lemma flagged_noData_spec (i : Image) :
  flagged_noData i = true <-> exists x, get "noData" i = Some x /\ (x == 1)%Q.
Proof.
  unfold flagged_noData, filter_eq. split.
  - destruct (get "noData" i) as [x|]; [|discriminate].
    intros Hx. exists x. split; [reflexivity|]. now apply Qeq_bool_iff.
  - intros (x & -> & Hx). now apply Qeq_bool_iff.
Qed.

(** The comparison of the sort on two stamps that are present is the
    order of the rationals. *)
Lemma time_le_stamps (a b : Image) (x y : Q) :
  time_start a = Some x -> time_start b = Some y -> time_le a b -> (x <= y)%Q.
Proof.
  unfold time_le. intros -> ->. simpl. apply Qle_bool_iff.
Qed.

Lemma filtered_of_sorted (c : list Image) :
  StronglySorted time_le (LST.filtered_of c).
Proof.
  unfold LST.filtered_of, sort, time_le, time_start.
  apply (isort_StronglySorted
           (fun i j => key_leb (get "system:time_start" i)
                               (get "system:time_start" j))).
  - intros x y. apply key_leb_total.
  - intros x y z. apply key_leb_trans.
Qed.

(** C9.  For every collection of images the filtered view holds exactly
    the entries that are not placeholders, that is the entries that do
    not carry the flag [noData] with value 1, each as often as the
    collection has it; read from front to back the time stamps of the
    view never decrease, as rational numbers; the collection itself,
    which is the full view, is left as it is and splits into the filtered
    view and the placeholders. *)
Theorem C9_filtered_view (c : list Image) :
  let view := LST.filtered_of c in
  (forall i, In i view
             <-> In i c /\ ~ (exists x, get "noData" i = Some x /\ (x == 1)%Q))
  /\ Permutation view (List.filter (fun i => negb (flagged_noData i)) c)
  /\ (forall (m n : nat) (x y : Q),
        (m < n)%nat ->
        List.map time_start view !! m = Some (Some x) ->
        List.map time_start view !! n = Some (Some y) ->
        (x <= y)%Q)
  /\ length c = (length view + length (List.filter flagged_noData c))%nat.
Proof.
  intros view.
  assert (Hperm : Permutation view
                    (List.filter (fun i => negb (flagged_noData i)) c)).
  { unfold view, LST.filtered_of, sort. apply isort_perm. }
  assert (Hflag : forall i, negb (flagged_noData i) = true
                    <-> ~ (exists x, get "noData" i = Some x /\ (x == 1)%Q)).
  { intros i. rewrite <- flagged_noData_spec.
    destruct (flagged_noData i); simpl; split; intros Hn;
      congruence || (exfalso; now apply Hn). }
  split; [|split; [exact Hperm|split]].
  - intros i. rewrite <- Hflag.
    rewrite <- (filter_In (fun j => negb (flagged_noData j)) i c). split.
    + apply (Permutation_in _ Hperm).
    + apply (Permutation_in _ (Permutation_sym Hperm)).
  - intros m n x y Hmn Hm Hn.
    change (List.map time_start view) with (time_start <$> view) in Hm, Hn.
    rewrite list_lookup_fmap in Hm, Hn.
    destruct (view !! m) as [a|] eqn:Ea; [|discriminate].
    destruct (view !! n) as [b|] eqn:Eb; [|discriminate].
    simpl in Hm, Hn. injection Hm as Hm. injection Hn as Hn.
    apply (time_le_stamps a b x y Hm Hn).
    apply (StronglySorted_lookup time_le view (filtered_of_sorted c) m n);
      assumption.
  - rewrite (Permutation_length Hperm). apply filter_split_length.
Qed.

(** The series of the concrete run read backwards, from day 14 down to
    day 10: the view drops the placeholder of day 12 and puts the other
    four days in ascending order. *)
Lemma C9_filtered_view_witness :
  let c := rev (LST.dailyLST (H := Demo.platform) Demo.run) in
  List.map time_start c
  = [Some (stamp 14); Some (stamp 13); Some (stamp 12); Some (stamp 11);
     Some (stamp 10)]
  /\ List.map time_start (LST.filtered_of c)
     = [Some (stamp 10); Some (stamp 11); Some (stamp 13); Some (stamp 14)]
  /\ (stamp 10%Z <= stamp 11%Z)%Q.
Proof.
  intros c.
  assert (Hc : List.map time_start c
               = [Some (stamp 14); Some (stamp 13); Some (stamp 12);
                  Some (stamp 11); Some (stamp 10)])
    by reflexivity.
  assert (Hv : List.map time_start (LST.filtered_of c)
               = [Some (stamp 10); Some (stamp 11); Some (stamp 13);
                  Some (stamp 14)])
    by reflexivity.
  split; [exact Hc|split; [exact Hv|]].
  destruct (C9_filtered_view c) as (_ & _ & Hord & _).
  apply (Hord 0%nat 1%nat (stamp 10) (stamp 11)).
  - lia.
  - rewrite Hv. reflexivity.
  - rewrite Hv. reflexivity.
Defined.

End AssemblerTheorems.

(** ** The feature selector *)

Module SelectorTheorems.
Import EE Table Selector.

Lemma interleave_flat (ps acc : list string) (l : string) :
  fold_left (fun a p => a ++ [p; l]) ps acc
  = acc ++ flat_map (fun p => [p; l]) ps.
Proof.
  revert acc. induction ps as [|p ps IH]; intros acc; simpl.
  - now rewrite app_nil_r.
  - rewrite IH. now rewrite <- app_assoc.
Qed.

(** The selectors pair every candidate with the label. *)
Lemma pairs_interleave (ps : list string) (l : string) :
  pairs (LST.interleave ps l) = List.map (fun p => (p, l)) ps.
Proof.
  unfold LST.interleave. rewrite interleave_flat. simpl.
  induction ps as [|p ps IH]; simpl; [reflexivity|]. now rewrite IH.
Qed.

Lemma corr_of_map (ps : list string) (t : FeatureCollection) :
  LST.corr_of ps t
  = List.map (fun p => pearsonsCorrelation (rows p LST.label t)) ps.
Proof.
  unfold LST.corr_of, reduceColumns_pearson.
  rewrite pairs_interleave.
  rewrite <- (length_map (fun p => (p, LST.label)) ps), firstn_all.
  now rewrite List.map_map.
Qed.

(** Entry i of the correlation table is candidate i with its own score. *)
Lemma correlation_of_map (ps : list string) (t : FeatureCollection) :
  LST.correlation_of ps t = List.map (fun b => mkRanked b (score t b)) ps.
Proof.
  unfold LST.correlation_of. rewrite corr_of_map.
  change (List.map ?f ?l) with (f <$> l).
  rewrite <- (imap_const (fun b => mkRanked b (score t b))).
  apply imap_ext. intros i b Hi. simpl. f_equal.
  unfold score. f_equal.
  apply nth_lookup_Some with (d := NaN).
  now rewrite list_lookup_fmap, Hi.
Qed.



Lemma topCorr_of_ranked `{Platform} (k : nat) (ps : list string)
    (t : FeatureCollection) :
  LST.topCorr_of k ps t
  = List.map feature (firstn (k * 2) (ranked ee_nan_high (LST.correlation_of ps t))).
Proof. reflexivity. Qed.

Lemma modelFeatures_of_ranked `{Platform} (k : nat) (ps : list string)
    (t : FeatureCollection) :
  LST.modelFeatures_of k ps t
  = List.map feature (firstn k (ranked ee_nan_high (LST.correlation_of ps t))).
Proof.
  unfold LST.modelFeatures_of, slice0. rewrite topCorr_of_ranked.
  rewrite <- firstn_map, firstn_firstn, firstn_map.
  now replace (Nat.min k (k * 2)) with k by lia.
Qed.


Lemma ranked_perm (h : bool) (c : list Ranked) : Permutation (ranked h c) c.
Proof. apply isort_perm. Qed.




Lemma zero_variance_score (t : FeatureCollection) (b : string) :
  zero_variance t b -> score t b = None.
Proof.
  unfold zero_variance, score, pow2, pearsonsCorrelation. intros Hz. simpl.
  replace (Qeq_bool _ 0) with true; [reflexivity|].
  symmetry. apply Qeq_bool_iff. rewrite Hz. apply Qmult_0_l.
Qed.










(** C6 (as the script has it).  A candidate that does not vary over the
    rows has an undefined score and is not removed: the ranking has one
    entry per candidate, in candidate order, and the entry of the
    degenerate candidate carries the undefined score; the candidate is in
    the shortlist whenever the shortlist is long enough to hold every
    candidate, and likewise in the final predictors. *)
Theorem C6_degenerate_feature_kept `{Platform} (k : nat) (ps : list string)
    (t : FeatureCollection) (b : string) :
  In b ps -> zero_variance t b ->
  score t b = None
  /\ List.map feature (LST.correlation_of ps t) = ps
  /\ In (mkRanked b None) (LST.correlation_of ps t)
  /\ ((length ps <= k * 2)%nat -> In b (LST.topCorr_of k ps t))
  /\ ((length ps <= k)%nat -> In b (LST.modelFeatures_of k ps t)).
Proof.
  intros Hin Hz.
  assert (Hs := zero_variance_score t b Hz).
  assert (Hentry : In (mkRanked b None) (LST.correlation_of ps t)).
  { rewrite correlation_of_map, <- Hs.
    now apply (in_map (fun b => mkRanked b (score t b))). }
  assert (Hall : forall n, (length ps <= n)%nat ->
            In b (List.map feature
                    (firstn n (ranked ee_nan_high (LST.correlation_of ps t))))).
  { intros n Hn. rewrite firstn_all2.
    - apply (in_map feature _ (mkRanked b None)).
      now apply (Permutation_in _ (Permutation_sym (ranked_perm _ _))).
    - rewrite (Permutation_length (ranked_perm _ _)), correlation_of_map.
      now rewrite length_map. }
  split; [exact Hs|split; [|split; [exact Hentry|split]]].
  - rewrite correlation_of_map, List.map_map. simpl. apply List.map_id.
  - intros Hk. rewrite topCorr_of_ranked. now apply Hall.
  - intros Hk. rewrite modelFeatures_of_ranked. now apply Hall.
Qed.

Lemma C6_degenerate_feature_kept_witness :
  In "C"%string ["A"; "B"; "C"]%string
  /\ zero_variance Demo.table "C"
  /\ score Demo.table "C" = None
  /\ In (mkRanked "C" None) (LST.correlation_of ["A"; "B"; "C"]%string Demo.table)
  /\ In "C"%string
        (LST.modelFeatures_of (H := Demo.platform) 3 ["A"; "B"; "C"]%string Demo.table).
Proof.
  assert (Hin : In "C"%string ["A"; "B"; "C"]%string) by (simpl; auto).
  assert (Hz : zero_variance Demo.table "C") by (vm_compute; reflexivity).
  destruct (C6_degenerate_feature_kept (H := Demo.platform) 3
              ["A"; "B"; "C"]%string Demo.table "C"%string Hin Hz)
    as (Hs & _ & He & _ & Hm).
  split; [exact Hin|split; [exact Hz|split; [exact Hs|split; [exact He|]]]].
  apply Hm. simpl. lia.
Defined.

(** C6 as stated fails: in the concrete table candidate C never varies,
    yet it has an entry in the ranking, with an undefined score, and it is
    one of the selected predictors. *)
Lemma C6_degenerate_counterexample :
  zero_variance Demo.table "C"
  /\ In (mkRanked "C" None) (LST.correlation_of ["A"; "B"; "C"]%string Demo.table)
  /\ In "C"%string
        (LST.modelFeatures_of (H := Demo.platform) 3 ["A"; "B"; "C"]%string Demo.table).
Proof.
  split; [vm_compute; reflexivity|].
  split; vm_compute; auto 10.
Qed.

End SelectorTheorems.

(** ** The train split *)

Module SplitTheorems.
Import EE Table Split.

Lemma filter_partition_perm {A : Type} (f : A -> bool) (l : list A) :
  Permutation (List.filter f l ++ List.filter (fun x => negb (f x)) l) l.
Proof.
  induction l as [|x l IH]; simpl; [constructor|].
  destruct (f x); simpl.
  - now constructor.
  - apply Permutation_sym, Permutation_cons_app, Permutation_sym, IH.
Qed.

Lemma length_filter_imap {A B : Type} (P : B -> bool) (Q : nat -> bool)
    (l : list A) :
  forall (g : nat -> A -> B) (a : nat),
    (forall i x, P (g i x) = Q (a + i)%nat) ->
    length (List.filter P (imap g l)) = length (List.filter Q (seq a (length l))).
Proof.
  induction l as [|x l IH]; intros g a Hg; simpl; [reflexivity|].
  rewrite (Hg 0%nat x), Nat.add_0_r.
  assert (Hrec : length (List.filter P (imap (g ∘ S) l))
                 = length (List.filter Q (seq (S a) (length l)))).
  { apply IH. intros i y. simpl. rewrite Hg. f_equal. lia. }
  destruct (Q a); simpl; now rewrite Hrec.
Qed.

(** Every row of the table with its random column has a random number. *)
Lemma randomColumn_In `{Platform} (t : FeatureCollection) (s : Sample) :
  In s (randomColumn t) ->
  exists i s0, t !! i = Some s0 /\ s = <["random"%string := ee_random 0 i]> s0.
Proof.
  intros Hs. apply list_elem_of_In, list_elem_of_lookup in Hs as [i Hi].
  unfold randomColumn in Hi. rewrite list_lookup_imap in Hi.
  destruct (t !! i) as [s0|] eqn:E; simpl in Hi; [|discriminate].
  injection Hi as <-. now exists i, s0.
Qed.

(** C7.  For every table and ratio r the rows get one random number each
    (the row keeps its other columns); a row is in the train subset
    exactly when its own number is at most r and in the test subset
    exactly when it is not, so the size of the train subset is the number
    of draws that are at most r and no fixed share of the table; no row is
    in both subsets, and together the two subsets are the whole table. *)
Theorem C7_train_test_split `{Platform} (r : Q) (t : FeatureCollection) :
  let full : list Sample := randomColumn t in
  let train := LST.train_of r t in
  let test := spec_test_of r t in
  length full = length t
  /\ (forall (i : nat) (s : Sample),
        t !! i = Some s ->
        full !! i = Some (<["random"%string := ee_random 0 i]> s))
  /\ (forall s, In s train
                <-> In s full
                    /\ exists x, s !! "random"%string = Some x /\ (x <= r)%Q)
  /\ (forall s, In s test
                <-> In s full
                    /\ exists x, s !! "random"%string = Some x /\ ~ (x <= r)%Q)
  /\ (forall s, In s train -> In s test -> False)
  /\ Permutation (train ++ test) full
  /\ length train
     = length (List.filter (fun i => Qle_bool (ee_random 0 i) r)
                           (seq 0 (length t))).
Proof.
  intros full train test.
  assert (Htrain : forall s, In s train <-> In s full /\ in_train r s = true).
  { intros s. unfold train, LST.train_of, filter_lte. apply filter_In. }
  assert (Htest : forall s, In s test <-> In s full /\ in_train r s = false).
  { intros s. unfold test, spec_test_of. rewrite filter_In.
    now rewrite negb_true_iff. }
  split; [|split; [|split; [|split; [|split; [|split]]]]].
  - unfold full, randomColumn. apply length_imap.
  - intros i s Hi. unfold full, randomColumn.
    now rewrite list_lookup_imap, Hi.
  - intros s. rewrite Htrain. unfold in_train. split.
    + intros [Hin Hle]. split; [assumption|].
      destruct (s !! "random"%string) as [x|]; [|discriminate].
      exists x. split; [reflexivity|]. now apply Qle_bool_iff.
    + intros [Hin (x & Hx & Hle)]. split; [assumption|].
      rewrite Hx. now apply Qle_bool_iff.
  - intros s. rewrite Htest. unfold in_train. split.
    + intros [Hin Hle]. split; [assumption|].
      destruct (randomColumn_In t s Hin) as (i & s0 & _ & ->).
      rewrite lookup_insert_eq in Hle |- *.
      eexists. split; [reflexivity|].
      intros Hc. apply Qle_bool_iff in Hc. congruence.
    + intros [Hin (x & Hx & Hle)]. split; [assumption|].
      rewrite Hx. destruct (Qle_bool x r) eqn:E; [|reflexivity].
      exfalso. now apply Hle, Qle_bool_iff.
  - intros s H1 H2. apply Htrain in H1 as [_ H1]. apply Htest in H2 as [_ H2].
    congruence.
  - unfold train, test, LST.train_of, spec_test_of, filter_lte.
    apply (filter_partition_perm (in_train r)).
  - unfold train, LST.train_of, filter_lte, randomColumn.
    apply (length_filter_imap (in_train r)).
    intros i x. unfold in_train. now rewrite lookup_insert_eq.
Qed.

(** The concrete table under ratio 7/10: the draws are 0, 3/10, 6/10 and
    9/10, so three of the four rows are in the train subset. *)
Lemma C7_train_test_split_witness :
  (Demo.table : list Sample) !! 1%nat = Some (Demo.row 2 (-1) 5 20)
  /\ (randomColumn (H := Demo.platform) Demo.table : list Sample) !! 1%nat
     = Some (<["random"%string := (3 # 10)%Q]> (Demo.row 2 (-1) 5 20))
  /\ length (LST.train_of (H := Demo.platform) (7 # 10) Demo.table) = 3%nat.
Proof.
  assert (Hrow : (Demo.table : list Sample) !! 1%nat = Some (Demo.row 2 (-1) 5 20))
    by reflexivity.
  destruct (C7_train_test_split (H := Demo.platform) (7 # 10) Demo.table)
    as (_ & Hfull & _ & _ & _ & _ & Hlen).
  split; [exact Hrow|split; [exact (Hfull _ _ Hrow)|]].
  rewrite Hlen. reflexivity.
Defined.

End SplitTheorems.

(** ** Two runs *)

Module RunTheorems.
Import EE Table.









End RunTheorems.

(** ** The two feature stacks *)

Module StackTheorems.
Import EE Table Stack.

Lemma bandNames_cat (i : Image) (l : list Image) :
  bandNames (cat i l) = bandNames i ++ concat (List.map bandNames l).
Proof.
  unfold bandNames, cat. simpl. rewrite List.map_app. f_equal.
  induction l as [|j l IH]; simpl; [reflexivity|].
  now rewrite List.map_app, IH.
Qed.

Lemma bandNames_rename_one (n : string) (i : Image) :
  bands i <> [] -> bandNames (rename [n] i) = [n].
Proof.
  unfold bandNames, rename. simpl.
  destruct (bands i) as [|b l]; [congruence|reflexivity].
Qed.

Lemma bands_map_bands_nonempty (f : Band -> Band) (i : Image) :
  bands i <> [] -> bands (map_bands f i) <> [].
Proof.
  unfold map_bands. simpl. destruct (bands i); [congruence|discriminate].
Qed.

Lemma training_sources_In (run : Run) (i : Image) :
  In i (training_sources run)
  <-> In i (LST.s2 run)
      /\ filter_bounds (run_roi run) i = true
      /\ filter_date (run_start run) (run_end run) i = true.
Proof.
  unfold training_sources, LST.filter, filter_and.
  rewrite filter_In, andb_true_iff. tauto.
Qed.

Lemma day_sources_In (run : Run) (aoi : Geometry) (day : Date) (i : Image) :
  In i (day_sources run aoi day)
  <-> In i (LST.s2 run)
      /\ filter_bounds aoi i = true
      /\ filter_date day (advance day 1) i = true
      /\ filter_lt "CLOUDY_PIXEL_PERCENTAGE" 10 i = true.
Proof. unfold day_sources. rewrite !filter_In. tauto. Qed.

(** C4 (as the script has it).  Both stacks put the derived bands NDMI,
    NBR, MNDWI2, elevation, TPI and slope after the bands of their
    composite; the training stack ends with one more band, the elevation
    class of the stratification.  The derivations are the same at both
    sites: when the two composites are equal the training stack is the
    stack of the day followed by the class band.  The sources differ:
    both composites take the cloud-masked scenes of their region and date
    window, and the composite of a day takes only those whose cloud
    percentage is below 10. *)
Theorem C4_feature_stacks `{Platform} (run : Run) (aoi : Geometry) (day : Date) :
  bands (LST.srtm run) <> [] ->
  let training := LST.features run in
  let inference := LST.all run aoi day in
  bandNames training
  = bandNames (LST.s2Image run) ++ derived_names ++ ["elevation_class"%string]
  /\ bandNames inference = bandNames (day_composite run aoi day) ++ derived_names
  /\ (LST.s2Image run = day_composite run aoi day ->
      bands training = bands inference ++ bands (LST.strat run))
  /\ LST.s2Image run
     = clip (run_roi run) (median (List.map LST.cloudMaskS2 (training_sources run)))
  /\ day_composite run aoi day
     = clip aoi (median (List.map LST.cloudMaskS2 (day_sources run aoi day)))
  /\ (forall i, In i (training_sources run)
                <-> In i (LST.s2 run)
                    /\ filter_bounds (run_roi run) i = true
                    /\ filter_date (run_start run) (run_end run) i = true)
  /\ (forall i, In i (day_sources run aoi day)
                <-> In i (LST.s2 run)
                    /\ filter_bounds aoi i = true
                    /\ filter_date day (advance day 1) i = true
                    /\ filter_lt "CLOUDY_PIXEL_PERCENTAGE" 10 i = true).
Proof.
  intros Hdem training inference.
  assert (Helev : bandNames (rename ["elevation"%string] (LST.srtm run))
                  = ["elevation"%string])
    by now apply bandNames_rename_one.
  assert (Htpi : bandNames (LST.tpi run) = ["TPI"%string])
    by now apply bandNames_rename_one, bands_map_bands_nonempty.
  assert (Hslope : bandNames (LST.slope run) = ["slope"%string])
    by now apply bandNames_rename_one, bands_map_bands_nonempty.
  split; [|split; [|split; [|split; [|split; [|split]]]]].
  - unfold training, LST.features. rewrite bandNames_cat. f_equal.
    cbn [List.map concat]. rewrite Helev, Htpi, Hslope. reflexivity.
  - unfold inference, LST.all. cbv zeta. rewrite bandNames_cat.
    fold (day_composite run aoi day). f_equal.
    cbn [List.map concat]. rewrite Helev, Htpi, Hslope. reflexivity.
  - intros Heq. unfold training, inference, LST.features, LST.all. cbv zeta.
    fold (day_composite run aoi day). rewrite <- Heq.
    unfold cat, LST.ndmi, LST.nbr, LST.mndwi2. cbn [bands List.map concat].
    rewrite app_nil_r. now rewrite <- !app_assoc.
  - reflexivity.
  - reflexivity.
  - apply training_sources_In.
  - apply day_sources_In.
Qed.

(** A run trained on day 11 alone: its composite is the composite of the
    day. *)
Lemma C4_feature_stacks_witness :
  bands (LST.srtm Demo.run11) <> []
  /\ LST.s2Image Demo.run11 = day_composite Demo.run11 Demo.roi 11
  /\ bands (LST.features (H := Demo.platform) Demo.run11)
     = bands (LST.all (H := Demo.platform) Demo.run11 Demo.roi 11)
       ++ bands (LST.strat Demo.run11).
Proof.
  assert (Hdem : bands (LST.srtm Demo.run11) <> []) by discriminate.
  assert (Heq : LST.s2Image Demo.run11 = day_composite Demo.run11 Demo.roi 11)
    by reflexivity.
  destruct (C4_feature_stacks (H := Demo.platform) Demo.run11 Demo.roi 11 Hdem)
    as (_ & _ & Hbands & _).
  split; [exact Hdem|split; [exact Heq|exact (Hbands Heq)]].
Defined.

(** C4 as stated fails.  Day 14 has data, and for the run trained on day
    14 alone the training stack has a band the stack of the day has not;
    the training composite is made of two scenes and the composite of the
    day of one, the other being too cloudy for the daily filter. *)
Lemma C4_stack_counterexample :
  0 < size (LST.s2day Demo.run14 Demo.roi 14)
  /\ In "elevation_class"%string
        (bandNames (LST.features (H := Demo.platform) Demo.run14))
  /\ ~ In "elevation_class"%string
         (bandNames (LST.all (H := Demo.platform) Demo.run14 Demo.roi 14))
  /\ length (training_sources Demo.run14) = 2%nat
  /\ length (day_sources Demo.run14 Demo.roi 14) = 1%nat.
Proof.
  split; [reflexivity|].
  split; [vm_compute; auto 20|].
  split; [|split; reflexivity].
  vm_compute. intros Hc.
  repeat (destruct Hc as [Hc|Hc]; [discriminate|]). exact Hc.
Qed.

End StackTheorems.

(** * Further properties of the script *)

(** ** Facts on bands *)

Module BandFacts.
Import EE.

Lemma nonzero_bool_Q (b : bool) : nonzero (bool_Q b) = b.
Proof. destruct b; reflexivity. Qed.

Lemma Qle_bool_false (x y : Q) : Qle_bool x y = false <-> (y < x)%Q.
Proof.
  split.
  - intros Hf. apply Qnot_le_lt. intros Hle.
    apply Qle_bool_iff in Hle. congruence.
  - intros Hlt. destruct (Qle_bool x y) eqn:E; [|reflexivity].
    apply Qle_bool_iff in E. exfalso. exact (Qlt_not_le _ _ Hlt E).
Qed.

Lemma bandNames_cloudMaskS2 (image : Image) :
  bandNames (LST.cloudMaskS2 image)
  = List.filter (String.prefix "B") (bandNames image).
Proof.
  unfold LST.cloudMaskS2, select_B, divide, updateMask, map_bands, bandNames.
  cbn [bands]. generalize (bands image). intros l.
  induction l as [|[m b] l IH]; simpl; [reflexivity|].
  destruct (String.prefix "B" m); simpl; now rewrite IH.
Qed.

Lemma NoDup_list_filter {A : Type} (f : A -> bool) (l : list A) :
  NoDup l -> NoDup (List.filter f l).
Proof.
  induction l as [|x l IH]; simpl; intros Hnd; [constructor|].
  apply NoDup_cons in Hnd as [Hx Hnd].
  destruct (f x); [|now apply IH].
  apply NoDup_cons. split; [|now apply IH].
  intros Hin. apply Hx. apply list_elem_of_In in Hin.
  apply filter_In in Hin as [Hin _]. now apply list_elem_of_In.
Qed.

End BandFacts.

(** ** Cloud masks *)

Module MaskTheorems.
Import EE Table BandFacts.

Lemma land_pow2_eqb (q k : Z) :
  0 <= k -> (Z.land q (2 ^ k) =? 0) = negb (Z.testbit q k).
Proof.
  intros Hk.
  assert (Hland : Z.land q (2 ^ k) = if Z.testbit q k then 2 ^ k else 0).
  { apply Z.bits_inj'. intros n Hn. rewrite Z.land_spec.
    destruct (Z.testbit q k) eqn:E.
    - rewrite Z.pow2_bits_eqb by assumption.
      destruct (Z.eqb_spec k n) as [->|Hne].
      + now rewrite E.
      + apply andb_false_r.
    - rewrite Z.bits_0, Z.pow2_bits_eqb by assumption.
      destruct (Z.eqb_spec k n) as [->|Hne].
      + now rewrite E.
      + apply andb_false_r. }
  rewrite Hland. destruct (Z.testbit q k); simpl.
  - apply Z.eqb_neq. apply Z.pow_nonzero; lia.
  - reflexivity.
Qed.

Lemma Qeq_bool_inject_Z_0 (z : Z) : Qeq_bool (inject_Z z) 0 = (z =? 0).
Proof. destruct z; reflexivity. Qed.

(** The test of one bit of a quality band, as the masks write it. *)
Lemma bit_test (qa : Band) (k : Z) (p : Pixel) :
  0 <= k ->
  band_eq 0 (band_bitwiseAnd (2 ^ k) qa) p
  = (fun q => bool_Q (negb (Z.testbit (Qfloor q) k))) <$> qa p.
Proof.
  intros Hk. unfold band_eq, band_bitwiseAnd, band_map.
  destruct (qa p) as [q|]; simpl; [|reflexivity].
  now rewrite Qeq_bool_inject_Z_0, land_pow2_eqb.
Qed.

(** Looking a band up by name commutes with the three steps of the
    Sentinel-2 mask when the name starts with B. *)
Lemma find_band_select_B (f : Band -> Band) (n : string) (l : list (string * Band)) :
  String.prefix "B" n = true ->
  find_band n (List.filter (fun nb => String.prefix "B" (fst nb))
                           (List.map (fun nb => (fst nb, f (snd nb))) l))
  = f <$> find_band n l.
Proof.
  intros Hn. unfold find_band.
  induction l as [|[m b] l IH]; simpl; [reflexivity|].
  destruct (String.eqb n m) eqn:E.
  - apply String.eqb_eq in E. subst m. rewrite Hn. simpl.
    now rewrite String.eqb_refl.
  - destruct (String.prefix "B" m); simpl; [rewrite E|]; exact IH.
Qed.

Lemma find_band_select_B_none (n : string) (l : list (string * Band)) :
  String.prefix "B" n = false ->
  find_band n (List.filter (fun nb => String.prefix "B" (fst nb)) l) = None.
Proof.
  intros Hn. unfold find_band.
  induction l as [|[m b] l IH]; simpl; [reflexivity|].
  destruct (String.prefix "B" m) eqn:E; simpl; [|exact IH].
  destruct (String.eqb n m) eqn:E'; [|exact IH].
  apply String.eqb_eq in E'. congruence.
Qed.

(** X1.  The Sentinel-2 mask keeps the bands whose name starts with B, in
    their order, and no other band: in particular the quality band it
    reads is not part of its result. *)
Theorem cloudMaskS2_bands (image : Image) :
  bandNames (LST.cloudMaskS2 image)
  = List.filter (String.prefix "B") (bandNames image)
  /\ (forall n, String.prefix "B" n = false ->
                forall p, band n (LST.cloudMaskS2 image) p = None).
Proof.
  split.
  - apply bandNames_cloudMaskS2.
  - intros n Hn p. unfold band, LST.cloudMaskS2, select_B. cbn [bands].
    now rewrite find_band_select_B_none.
Qed.

(** X2.  A pixel of a reflectance band survives the Sentinel-2 mask exactly
    when the quality band has a value there with bits 10 (cloud) and 11
    (cirrus) both clear; the surviving value is the input divided by
    10000. *)
Theorem cloudMaskS2_pixel (image : Image) (n : string) (p : Pixel) :
  String.prefix "B" n = true ->
  band n (LST.cloudMaskS2 image) p
  = match band "QA60" image p with
    | Some q =>
        if Z.testbit (Qfloor q) 10 || Z.testbit (Qfloor q) 11 then None
        else (fun v => v / 10000)%Q <$> band n image p
    | None => None
    end.
Proof.
  intros Hn.
  assert (Hsrc : band n image p
                 = match find_band n (bands image) with
                   | Some b => b p
                   | None => None
                   end)
    by (unfold band; now destruct (find_band n (bands image))).
  rewrite Hsrc. clear Hsrc.
  unfold LST.cloudMaskS2. cbv zeta.
  set (qa := band "QA60" image).
  unfold band, select_B, divide, updateMask, map_bands. cbn [bands].
  rewrite List.map_map. cbn [fst snd].
  rewrite (find_band_select_B
             (fun b => band_map (fun x => (x / 10000)%Q)
                         (band_updateMask
                            (band_and (band_eq 0 (band_bitwiseAnd (2 ^ 10) qa))
                                      (band_eq 0 (band_bitwiseAnd (2 ^ 11) qa)))
                            b))) by assumption.
  destruct (find_band n (bands image)) as [b|]; cbn [fmap option_fmap option_map].
  - unfold band_map, band_updateMask, band_and, band_map2.
    rewrite !bit_test by lia.
    destruct (qa p) as [q|]; cbn [fmap option_fmap option_map]; [|reflexivity].
    rewrite !nonzero_bool_Q.
    destruct (Z.testbit (Qfloor q) 10), (Z.testbit (Qfloor q) 11);
      cbn [negb andb orb bool_Q nonzero]; reflexivity.
  - destruct (qa p) as [q|]; [|reflexivity].
    now destruct (_ || _).
Qed.


(** X3.  The Landsat mask returns one band, named LST.  A pixel survives
    exactly when the quality band has a value there with bits 1 to 4 all
    clear (bit 0 is not consulted); the surviving value is the scaled
    surface temperature in degrees Celsius. *)
Theorem cloudMaskLandsat_pixel (image : Image) (p : Pixel) :
  bandNames (LST.cloudMaskLandsat image) = ["LST"%string]
  /\ band "LST" (LST.cloudMaskLandsat image) p
     = match band "QA_PIXEL" image p with
       | Some q =>
           if Z.testbit (Qfloor q) 1 || Z.testbit (Qfloor q) 2
              || Z.testbit (Qfloor q) 3 || Z.testbit (Qfloor q) 4
           then None
           else (fun v => v * (341802 # 100000000) + 149 - (27315 # 100))%Q
                  <$> band "ST_B10" image p
       | None => None
       end.
Proof.
  split; [reflexivity|].
  unfold LST.cloudMaskLandsat. cbv zeta.
  set (qa := band "QA_PIXEL" image). set (st := band "ST_B10" image).
  unfold band, rename, updateMask, subtract, add, multiply, select, map_bands,
    find_band.
  cbn [bands List.map fst snd combine List.find String.eqb Ascii.eqb Bool.eqb
       fmap option_fmap option_map].
  fold st.
  unfold allNonZero, band_updateMask, band_map.
  cbn [bands List.map fst snd fold_right].
  change (Z.shiftl 1 1) with (2 ^ 1). change (Z.shiftl 1 2) with (2 ^ 2).
  change (Z.shiftl 1 3) with (2 ^ 3). change (Z.shiftl 1 4) with (2 ^ 4).
  rewrite !bit_test by lia.
  destruct (qa p) as [q|]; cbn [fmap option_fmap option_map]; [|reflexivity].
  rewrite !nonzero_bool_Q.
  destruct (Z.testbit (Qfloor q) 1), (Z.testbit (Qfloor q) 2),
           (Z.testbit (Qfloor q) 3), (Z.testbit (Qfloor q) 4);
    cbn [negb andb orb bool_Q nonzero Qeq_bool Qnum Qden Z.mul Pos.mul
         Z.eqb Z.compare];
    try reflexivity.
  destruct (st p); reflexivity.
Qed.

(** A clear Sentinel-2 pixel of the concrete archive. *)
Lemma cloudMaskS2_pixel_witness :
  String.prefix "B" "B8" = true
  /\ band "B8" (LST.cloudMaskS2 (Demo.scene 10 2 (Demo.s2_bands 1))) (0, 0)
     = Some (3000 * 1 / 10000)%Q.
Proof.
  split; [reflexivity|].
  rewrite (cloudMaskS2_pixel _ "B8" (0, 0)) by reflexivity.
  reflexivity.
Defined.

End MaskTheorems.

(** ** Elevation classes and spectral indices *)

Module TerrainTheorems.
Import EE Table BandFacts.

Ltac decide_Qle c v :=
  let E := fresh "E" in
  destruct (Qle_bool c v) eqn:E;
  [apply Qle_bool_iff in E | apply Qle_bool_false in E].

(** X4.  The class band of the stratification: wherever the elevation model
    has a value, the class is one of 1 to 7, and it is the class of the
    elevation interval the value lies in; the intervals 0 to 10, 10 to
    50, 50 to 100, 100 to 500 and 500 to 1000 contain their lower bound
    only.  The initial class 0 never survives. *)
Theorem strat_classes (run : Run) (p : Pixel) (v : Q) :
  first_band (LST.srtm run) p = Some v ->
  exists c : Z,
    band "elevation_class" (LST.strat run) p = Some (inject_Z c)
    /\ 1 <= c <= 7
    /\ (c = 1 <-> (v < 0)%Q)
    /\ (c = 2 <-> (0 <= v < 10)%Q)
    /\ (c = 3 <-> (10 <= v < 50)%Q)
    /\ (c = 4 <-> (50 <= v < 100)%Q)
    /\ (c = 5 <-> (100 <= v < 500)%Q)
    /\ (c = 6 <-> (500 <= v < 1000)%Q)
    /\ (c = 7 <-> (1000 <= v)%Q).
Proof.
  intros Hv.
  unfold LST.strat. cbv zeta.
  unfold band, rename, map_bands, constant_image, find_band.
  cbn [bands List.map fst snd combine List.find String.eqb Ascii.eqb Bool.eqb
       fmap option_fmap option_map].
  unfold band_where, band_and, band_map2, band_gte, band_lt, band_map, constant,
    Qlt_bool.
  rewrite Hv. rewrite !nonzero_bool_Q.
  decide_Qle 1000%Q v; decide_Qle 500%Q v; decide_Qle 100%Q v;
    decide_Qle 50%Q v; decide_Qle 10%Q v; decide_Qle 0%Q v;
    cbn [negb andb];
    try (exfalso; lra).
  all: eexists; split; [reflexivity|]; repeat split; intros; try lia; try lra.
Qed.


(** Pixel (1, 1) of the concrete elevation model is at 70 m. *)
Lemma strat_classes_witness :
  first_band (LST.srtm Demo.run) (1, 1) = Some (inject_Z 70)
  /\ band "elevation_class" (LST.strat Demo.run) (1, 1) = Some (inject_Z 4).
Proof.
  split; [reflexivity|].
  destruct (strat_classes Demo.run (1, 1) (inject_Z 70) eq_refl)
    as (c & Hc & _ & _ & _ & _ & H4 & _).
  rewrite Hc. do 2 f_equal. apply H4. split; reflexivity || discriminate.
Defined.

(** A normalized difference, where it has a value, lies between -1 and
    1. *)
Lemma normalizedDifference_range (a b : string) (i : Image) (p : Pixel) (v : Q) :
  first_band (normalizedDifference a b i) p = Some v -> (-1 <= v <= 1)%Q.
Proof.
  unfold normalizedDifference, first_band. cbn [bands].
  destruct (band a i p) as [x|]; [|discriminate].
  destruct (band b i p) as [y|]; [|discriminate].
  unfold Qlt_bool.
  decide_Qle 0%Q x; cbn [negb orb]; [|discriminate].
  decide_Qle 0%Q y; cbn [negb orb]; [|discriminate].
  destruct (Qeq_bool (x + y) 0) eqn:Es; [discriminate|].
  intros Hv. injection Hv as <-.
  assert (Hpos : (0 < x + y)%Q).
  { destruct (Qlt_le_dec 0 (x + y)) as [Hlt|Hle]; [assumption|].
    exfalso. assert (Hz : (x + y == 0)%Q) by lra.
    apply Qeq_bool_iff in Hz. congruence. }
  split.
  - apply Qle_shift_div_l; [assumption|]. lra.
  - apply Qle_shift_div_r; [assumption|]. lra.
Qed.

End TerrainTheorems.

(** ** Bands of the feature stacks *)

Module BandTheorems.
Import EE Table Stack BandFacts.

Abbreviation B_name := (fun n : string => String.prefix "B" n = true).

Lemma cloudMaskS2_names (image : Image) :
  Forall B_name (bandNames (LST.cloudMaskS2 image)).
Proof.
  rewrite bandNames_cloudMaskS2. apply List.Forall_forall. intros n Hn.
  now apply filter_In in Hn as [_ Hp].
Qed.

Lemma cloudMaskS2_NoDup (image : Image) :
  NoDup (bandNames image) -> NoDup (bandNames (LST.cloudMaskS2 image)).
Proof. rewrite bandNames_cloudMaskS2. apply NoDup_list_filter. Qed.

(** The bands of a clipped composite of masked scenes are those of its
    first scene. *)
Lemma composite_names (r : list Q -> option Q) (g : Geometry)
    (c : ImageCollection) :
  bandNames (clip g (composite r (List.map LST.cloudMaskS2 c)))
  = match c with
    | [] => []
    | i :: _ => bandNames (LST.cloudMaskS2 i)
    end.
Proof.
  destruct c as [|i c]; [reflexivity|].
  unfold clip, composite, bandNames. cbn [bands List.map].
  rewrite !List.map_map. apply List.map_ext. intros [n b]. reflexivity.
Qed.

Lemma composite_names_B (r : list Q -> option Q) (g : Geometry)
    (c : ImageCollection) :
  Forall B_name (bandNames (clip g (composite r (List.map LST.cloudMaskS2 c)))).
Proof.
  rewrite composite_names. destruct c; [constructor|apply cloudMaskS2_names].
Qed.

Lemma composite_names_NoDup (r : list Q -> option Q) (g : Geometry)
    (c : ImageCollection) :
  Forall (fun i => NoDup (bandNames i)) c ->
  NoDup (bandNames (clip g (composite r (List.map LST.cloudMaskS2 c)))).
Proof.
  intros Hc. rewrite composite_names. destruct c as [|i c]; [constructor|].
  apply cloudMaskS2_NoDup. now inversion Hc.
Qed.

Lemma Forall_filter_keep {A : Type} (P : A -> Prop) (f : A -> bool) (l : list A) :
  Forall P l -> Forall P (List.filter f l).
Proof.
  intros Hl. apply List.Forall_forall. intros x Hx.
  apply filter_In in Hx as [Hx _].
  rewrite List.Forall_forall in Hl. now apply Hl.
Qed.

(** A name that does not start with B is looked up past the reflectance
    bands. *)
Lemma find_band_past (n : string) (l1 l2 : list (string * Band)) :
  String.prefix "B" n = false ->
  Forall B_name (List.map fst l1) ->
  find_band n (l1 ++ l2) = find_band n l2.
Proof.
  intros Hn Hl. unfold find_band.
  induction l1 as [|[m b] l1 IH]; cbn [app List.find fst]; [reflexivity|].
  inversion Hl as [|? ? Hm Hl']; subst. simpl in Hm.
  destruct (String.eqb n m) eqn:E; [|now apply IH].
  apply String.eqb_eq in E. congruence.
Qed.

Lemma names_features `{Platform} (run : Run) :
  bands (LST.srtm run) <> [] ->
  bandNames (LST.features run)
  = bandNames (LST.s2Image run) ++ derived_names ++ ["elevation_class"%string].
Proof.
  intros Hdem. unfold LST.features. rewrite StackTheorems.bandNames_cat. f_equal.
  cbn [List.map concat].
  rewrite (StackTheorems.bandNames_rename_one "elevation") by assumption.
  unfold LST.tpi, LST.slope.
  rewrite !StackTheorems.bandNames_rename_one
    by now apply StackTheorems.bands_map_bands_nonempty.
  reflexivity.
Qed.

Lemma names_all `{Platform} (run : Run) (aoi : Geometry) (day : Date) :
  bands (LST.srtm run) <> [] ->
  bandNames (LST.all run aoi day)
  = bandNames (day_composite run aoi day) ++ derived_names.
Proof.
  intros Hdem. unfold LST.all. cbv zeta. rewrite StackTheorems.bandNames_cat.
  fold (day_composite run aoi day). f_equal.
  cbn [List.map concat].
  rewrite (StackTheorems.bandNames_rename_one "NDMI"),
    (StackTheorems.bandNames_rename_one "NBR"),
    (StackTheorems.bandNames_rename_one "MNDWI2") by discriminate.
  rewrite (StackTheorems.bandNames_rename_one "elevation") by assumption.
  unfold LST.tpi, LST.slope.
  rewrite (StackTheorems.bandNames_rename_one "TPI"),
    (StackTheorems.bandNames_rename_one "slope")
    by now apply StackTheorems.bands_map_bands_nonempty.
  reflexivity.
Qed.

Lemma NoDup_B_app (l d : list string) :
  NoDup l -> NoDup d -> Forall B_name l ->
  Forall (fun n => String.prefix "B" n = false) d ->
  NoDup (l ++ d).
Proof.
  intros Hl Hd HB Hn. apply NoDup_app. split; [assumption|split; [|assumption]].
  intros n Hin1 Hin2.
  rewrite Forall_forall in HB. rewrite Forall_forall in Hn.
  specialize (HB n Hin1). specialize (Hn n Hin2). simpl in HB. congruence.
Qed.

(** X6.  When every scene of the archive has pairwise distinct band names, so
    have the training stack and the stack of every day: no derived band
    takes the name of a reflectance band, and stacking never has to
    rename a band. *)
Theorem stack_names_distinct `{Platform} (run : Run) (aoi : Geometry) (day : Date) :
  bands (LST.srtm run) <> [] ->
  Forall (fun i => NoDup (bandNames i)) (LST.s2 run) ->
  NoDup (bandNames (LST.features run))
  /\ NoDup (bandNames (LST.all run aoi day)).
Proof.
  intros Hdem Hs2. split.
  - rewrite names_features by assumption.
    apply NoDup_B_app.
    + unfold LST.s2Image, median. apply composite_names_NoDup.
      now apply Forall_filter_keep.
    + unfold derived_names. compute_done.
    + unfold LST.s2Image, median. apply composite_names_B.
    + unfold derived_names. cbn [app]. repeat constructor.
  - rewrite names_all by assumption.
    apply NoDup_B_app.
    + unfold day_composite, LST.s2day, median. apply composite_names_NoDup.
      now do 3 apply Forall_filter_keep.
    + unfold derived_names. compute_done.
    + unfold day_composite, LST.s2day, median. apply composite_names_B.
    + unfold derived_names. repeat constructor.
Qed.

Lemma stack_names_distinct_witness :
  bands (LST.srtm Demo.run) <> []
  /\ Forall (fun i => NoDup (bandNames i)) (LST.s2 Demo.run)
  /\ NoDup (bandNames (LST.features (H := Demo.platform) Demo.run))
  /\ NoDup (bandNames (LST.all (H := Demo.platform) Demo.run Demo.roi 10)).
Proof.
  assert (Hdem : bands (LST.srtm Demo.run) <> []) by discriminate.
  assert (Hs2 : Forall (fun i => NoDup (bandNames i)) (LST.s2 Demo.run)).
  { repeat constructor; compute_done. }
  split; [exact Hdem|split; [exact Hs2|]].
  exact (stack_names_distinct (H := Demo.platform) Demo.run Demo.roi 10 Hdem Hs2).
Defined.

(** X5.  The three spectral indices lie between -1 and 1 wherever they have a
    value, in the training stack and in the stack of every day. *)
Theorem index_range `{Platform} (run : Run) (aoi : Geometry) (day : Date)
    (n : string) (p : Pixel) (v : Q) :
  In n ["NDMI"; "NBR"; "MNDWI2"]%string ->
  band n (LST.features run) p = Some v
  \/ band n (LST.all run aoi day) p = Some v ->
  (-1 <= v <= 1)%Q.
Proof.
  intros Hn Hv.
  assert (HnB : String.prefix "B" n = false).
  { destruct Hn as [<-|[<-|[<-|[]]]]; reflexivity. }
  destruct Hv as [Hv|Hv].
  - unfold band, LST.features, cat in Hv. cbn [bands] in Hv.
    rewrite find_band_past in Hv;
      [|assumption|unfold LST.s2Image, median; apply composite_names_B].
    unfold LST.ndmi, LST.nbr, LST.mndwi2, rename in Hv.
    cbn [List.map concat bands combine snd app] in Hv.
    unfold find_band in Hv.
    destruct Hn as [<-|[<-|[<-|[]]]];
      cbn [List.find fst snd String.eqb Ascii.eqb Bool.eqb fmap option_fmap
           option_map] in Hv;
      eapply TerrainTheorems.normalizedDifference_range;
      unfold first_band, normalizedDifference; cbn [bands]; exact Hv.
  - unfold band, LST.all, cat in Hv. cbv zeta in Hv. cbn [bands] in Hv.
    rewrite find_band_past in Hv;
      [|assumption|unfold LST.s2day, median; apply composite_names_B].
    unfold rename in Hv.
    cbn [List.map concat bands combine snd app] in Hv.
    unfold find_band in Hv.
    destruct Hn as [<-|[<-|[<-|[]]]];
      cbn [List.find fst snd String.eqb Ascii.eqb Bool.eqb fmap option_fmap
           option_map] in Hv;
      eapply TerrainTheorems.normalizedDifference_range;
      unfold first_band, normalizedDifference; cbn [bands]; exact Hv.
Qed.


(** The moisture index of day 10 of the concrete run. *)
Lemma index_range_witness :
  In "NDMI"%string ["NDMI"; "NBR"; "MNDWI2"]%string
  /\ exists v,
       band "NDMI" (LST.all (H := Demo.platform) Demo.run Demo.roi 10) (0, 0) = Some v
       /\ (-1 <= v <= 1)%Q.
Proof.
  assert (Hn : In "NDMI"%string ["NDMI"; "NBR"; "MNDWI2"]%string) by (simpl; auto).
  split; [exact Hn|].
  eexists. split; [vm_compute; reflexivity|].
  apply (index_range (H := Demo.platform) Demo.run Demo.roi 10 "NDMI" (0, 0) _ Hn).
  right. vm_compute. reflexivity.
Defined.

End BandTheorems.

(** ** The selected predictors and the model *)

Module ModelTheorems.
Import EE Table Stack Selector.

Lemma ranked_features `{Platform} (ps : list string) (t : FeatureCollection) :
  Permutation
    (List.map feature (ranked ee_nan_high (LST.correlation_of ps t))) ps.
Proof.
  rewrite (Permutation_map feature (SelectorTheorems.ranked_perm _ _)).
  rewrite SelectorTheorems.correlation_of_map, List.map_map. simpl.
  now rewrite List.map_id.
Qed.

Lemma In_firstn_all {A : Type} (k : nat) (l : list A) (x : A) :
  In x (firstn k l) -> In x l.
Proof.
  intros Hin. rewrite <- (firstn_skipn k l). apply in_or_app. now left.
Qed.

Lemma modelFeatures_of_incl `{Platform} (k : nat) (ps : list string)
    (t : FeatureCollection) (f : string) :
  In f (LST.modelFeatures_of k ps t) -> In f ps.
Proof.
  rewrite SelectorTheorems.modelFeatures_of_ranked, <- firstn_map.
  intros Hin. apply (Permutation_in _ (ranked_features ps t)).
  now apply In_firstn_all in Hin.
Qed.

(** X7.  The selection returns min(K, number of candidates) names, each of
    them a candidate and none twice when no candidate is listed twice;
    it is the beginning of the shortlist, and when K is at least the
    number of candidates it is all of them. *)
Theorem selection_shape `{Platform} (k : nat) (ps : list string)
    (t : FeatureCollection) :
  let sel := LST.modelFeatures_of k ps t in
  length sel = Nat.min k (length ps)
  /\ (forall f, In f sel -> In f ps)
  /\ (NoDup ps -> NoDup sel)
  /\ (exists rest, LST.topCorr_of k ps t = sel ++ rest)
  /\ ((length ps <= k)%nat -> Permutation sel ps).
Proof.
  intros sel.
  assert (Hsel : sel = firstn k (List.map feature
                                   (ranked ee_nan_high (LST.correlation_of ps t)))).
  { unfold sel. now rewrite SelectorTheorems.modelFeatures_of_ranked, firstn_map. }
  assert (Hlen : length (List.map feature
                           (ranked ee_nan_high (LST.correlation_of ps t)))
                 = length ps)
    by apply (Permutation_length (ranked_features ps t)).
  split; [|split; [|split; [|split]]].
  - rewrite Hsel, length_firstn, Hlen. reflexivity.
  - apply modelFeatures_of_incl.
  - intros Hnd. rewrite Hsel.
    eapply sublist_NoDup; [|apply sublist_take].
    now rewrite (ranked_features ps t).
  - exists (skipn k (LST.topCorr_of k ps t)).
    unfold sel, LST.modelFeatures_of, slice0. now rewrite firstn_skipn.
  - intros Hk. rewrite Hsel, firstn_all2 by lia. apply ranked_features.
Qed.

(** X8.  For every day whose composite has the three reflectance bands among
    the candidates, every input the trained model expects is a band of
    the stack of the day: the prediction never meets a missing band. *)
Theorem model_inputs_available `{Platform} (run : Run) (aoi : Geometry)
    (day : Date) :
  bands (LST.srtm run) <> [] ->
  (forall n, In n ["B4"; "B8"; "B11"]%string ->
             In n (bandNames (day_composite run aoi day))) ->
  forall n, In n (inputs (LST.model run)) ->
            In n (bandNames (LST.all run aoi day)).
Proof.
  intros Hdem Hrefl n Hn.
  unfold LST.model in Hn. cbn [inputs] in Hn.
  apply modelFeatures_of_incl in Hn.
  rewrite BandTheorems.names_all by assumption.
  apply in_or_app. unfold LST.predictors in Hn. unfold derived_names.
  destruct Hn as [<-|[<-|[<-|Hn]]];
    [left; apply Hrefl; simpl; auto ..|].
  right. simpl in Hn |- *. tauto.
Qed.

(** Two of the three candidates of the concrete table. *)
Lemma selection_shape_witness :
  NoDup ["A"; "B"; "C"]%string
  /\ NoDup (LST.modelFeatures_of (H := Demo.platform) 2 ["A"; "B"; "C"]%string
                                  Demo.table)
  /\ length (LST.modelFeatures_of (H := Demo.platform) 2 ["A"; "B"; "C"]%string
                                   Demo.table) = 2%nat.
Proof.
  assert (Hnd : NoDup ["A"; "B"; "C"]%string) by compute_done.
  destruct (selection_shape (H := Demo.platform) 2 ["A"; "B"; "C"]%string Demo.table)
    as (Hlen & _ & Hsel & _).
  split; [exact Hnd|split; [exact (Hsel Hnd)|exact Hlen]].
Defined.

Lemma model_inputs_available_witness :
  bands (LST.srtm Demo.run) <> []
  /\ (forall n, In n ["B4"; "B8"; "B11"]%string ->
                In n (bandNames (day_composite Demo.run Demo.roi 10)))
  /\ forall n, In n (inputs (LST.model (H := Demo.platform) Demo.run)) ->
               In n (bandNames (LST.all (H := Demo.platform) Demo.run Demo.roi 10)).
Proof.
  assert (Hdem : bands (LST.srtm Demo.run) <> []) by discriminate.
  assert (Hrefl : forall n, In n ["B4"; "B8"; "B11"]%string ->
                            In n (bandNames (day_composite Demo.run Demo.roi 10))).
  { intros n [<-|[<-|[<-|[]]]]; vm_compute; auto 10. }
  split; [exact Hdem|split; [exact Hrefl|]].
  exact (model_inputs_available (H := Demo.platform) Demo.run Demo.roi 10 Hdem Hrefl).
Defined.

End ModelTheorems.

(** ** Ranges of days and the animation series *)

Module RangeTheorems.
Import EE Table Series SeriesFacts.

(** The step of a day depends on the day, not on how the range that
    contains it starts. *)
Lemma predictDay_shift `{Platform} (run : Run) (s : Date) (aoi : Geometry)
    (offset : Z) :
  LST.predictDay run s aoi offset = LST.predictDay run (s + offset) aoi 0.
Proof.
  unfold LST.predictDay, advance. now rewrite Z.add_0_r.
Qed.

Lemma predictDailyLST_days `{Platform} (run : Run) (s e : Date) (aoi : Geometry) :
  LST.predictDailyLST run s e aoi
  = List.map (fun d => LST.predictDay run d aoi 0) (requested_days s e).
Proof.
  unfold LST.predictDailyLST. cbv zeta.
  rewrite <- sequence_days, List.map_map.
  apply List.map_ext. intros off. apply predictDay_shift.
Qed.

Lemma map_seq_from {A : Type} (f : nat -> A) (n : nat) :
  forall a, List.map f (seq a n) = List.map (fun i => f (a + i)%nat) (seq 0 n).
Proof.
  revert f. induction n as [|n IH]; intros f a; [reflexivity|].
  cbn [seq List.map]. rewrite Nat.add_0_r. f_equal.
  rewrite (IH f (S a)), (IH (fun i => f (a + i)%nat) 1%nat).
  apply List.map_ext. intros i. f_equal. lia.
Qed.

Lemma requested_days_split (s m e : Date) :
  s <= m <= e ->
  requested_days s e = requested_days s m ++ requested_days m e.
Proof.
  intros Hm. unfold requested_days.
  replace (Z.to_nat (e - s)) with (Z.to_nat (m - s) + Z.to_nat (e - m))%nat by lia.
  rewrite seq_app, List.map_app. f_equal.
  rewrite Nat.add_0_l, map_seq_from.
  apply List.map_ext. intros i. lia.
Qed.

(** X9.  A range can be predicted in two pieces: for every day m between
    start and end, the series of the whole range is the series up to m
    followed by the series from m on. *)
Theorem predictDailyLST_split `{Platform} (run : Run) (s m e : Date)
    (aoi : Geometry) :
  s <= m <= e ->
  LST.predictDailyLST run s e aoi
  = LST.predictDailyLST run s m aoi ++ LST.predictDailyLST run m e aoi.
Proof.
  intros Hm. rewrite !predictDailyLST_days.
  now rewrite (requested_days_split s m e Hm), List.map_app.
Qed.


Lemma predictDailyLST_split_witness :
  10 <= 12 <= 15
  /\ LST.predictDailyLST (H := Demo.platform) Demo.run 10 15 Demo.roi
     = LST.predictDailyLST (H := Demo.platform) Demo.run 10 12 Demo.roi
       ++ LST.predictDailyLST (H := Demo.platform) Demo.run 12 15 Demo.roi.
Proof.
  assert (Hm : 10 <= 12 <= 15) by lia.
  split; [exact Hm|].
  exact (predictDailyLST_split (H := Demo.platform) Demo.run 10 12 15 Demo.roi Hm).
Defined.

Section SortedLists.
Context {A : Type} (leb : A -> A -> bool).

Lemma isort_sorted_id (l : list A) :
  Sorted (fun a b => leb a b = true) l -> isort leb l = l.
Proof.
  induction l as [|x l IH]; intros Hs; [reflexivity|].
  inversion Hs as [|? ? Hl Hhd]; subst. cbn [isort]. rewrite (IH Hl).
  destruct l as [|y l]; [reflexivity|].
  inversion Hhd as [|? ? Hxy]; subst. cbn [insert_sorted]. now rewrite Hxy.
Qed.

Lemma StronglySorted_list_filter (R : A -> A -> Prop) (f : A -> bool) (l : list A) :
  StronglySorted R l -> StronglySorted R (List.filter f l).
Proof.
  induction 1 as [|x l Hs IH Hall]; cbn [List.filter]; [constructor|].
  destruct (f x); [|assumption]. constructor; [assumption|].
  apply List.Forall_forall. intros y Hy. apply filter_In in Hy as [Hy _].
  rewrite List.Forall_forall in Hall. now apply Hall.
Qed.

Lemma list_filter_all (f : A -> bool) (l : list A) :
  (forall x, In x l -> f x = true) -> List.filter f l = l.
Proof.
  induction l as [|x l IH]; intros Hall; [reflexivity|].
  cbn [List.filter]. rewrite (Hall x) by now left.
  f_equal. apply IH. intros y Hy. apply Hall. now right.
Qed.

End SortedLists.

Lemma list_filter_map {A B : Type} (f : A -> B) (P : B -> bool) (l : list A) :
  List.filter P (List.map f l) = List.map f (List.filter (fun x => P (f x)) l).
Proof.
  induction l as [|x l IH]; [reflexivity|].
  cbn [List.map List.filter]. destruct (P (f x)); cbn [List.map]; now rewrite IH.
Qed.

(** An image of the series is kept by the animation filter exactly when
    its day has a scene. *)
Lemma kept_predictDay `{Platform} (run : Run) (d : Date) (aoi : Geometry) :
  negb (flagged_noData (LST.predictDay run d aoi 0))
  = (0 <? size (LST.s2day run aoi d)).
Proof.
  pose proof (flagged_predictDay run d aoi 0) as Hf.
  unfold advance in Hf. rewrite Z.add_0_r in Hf.
  destruct (flagged_noData _) eqn:E; cbn [negb]; symmetry.
  - apply Z.ltb_ge. assert (Hz : size (LST.s2day run aoi d) = 0) by now apply Hf.
    lia.
  - apply Z.ltb_lt.
    assert (Hnz : size (LST.s2day run aoi d) <> 0).
    { intros Hz. apply Hf in Hz. discriminate. }
    unfold size in *. lia.
Qed.

Lemma series_time_sorted `{Platform} (run : Run) (s e : Date) (aoi : Geometry) :
  StronglySorted time_le (LST.predictDailyLST run s e aoi).
Proof.
  rewrite predictDailyLST_days. unfold requested_days. rewrite List.map_map.
  apply StronglySorted_map_seq. intros i j Hij.
  unfold time_le. rewrite !time_start_predictDay. cbn [key_leb].
  apply Qle_bool_iff, Qlt_le_weak, stamp_lt. unfold advance. lia.
Qed.

(** X10.  On the series of the engine the sort of the animation changes
    nothing: the filtered series is the series without its placeholders,
    one image per day with a scene, in day order. *)
Theorem filtered_series `{Platform} (run : Run) (s e : Date) (aoi : Geometry) :
  let series := LST.predictDailyLST run s e aoi in
  LST.filtered_of series
  = List.filter (fun i => negb (flagged_noData i)) series
  /\ List.map time_start (LST.filtered_of series)
     = List.map (fun d => Some (stamp d))
         (List.filter (fun d => 0 <? size (LST.s2day run aoi d))
                      (requested_days s e)).
Proof.
  intros series.
  assert (Hid : LST.filtered_of series
                = List.filter (fun i => negb (flagged_noData i)) series).
  { unfold LST.filtered_of, sort. apply isort_sorted_id.
    apply StronglySorted_Sorted.
    apply (StronglySorted_list_filter time_le). apply series_time_sorted. }
  split; [exact Hid|].
  rewrite Hid. unfold series. rewrite predictDailyLST_days, list_filter_map.
  rewrite List.map_map.
  rewrite (List.filter_ext _ (fun d => 0 <? size (LST.s2day run aoi d)))
    by (intros d; apply kept_predictDay).
  apply List.map_ext. intros d. rewrite time_start_predictDay.
  unfold advance. now rewrite Z.add_0_r.
Qed.

(** X11.  Building the animation series twice gives the same series as
    building it once, for every collection. *)
Theorem filtered_of_idempotent (c : list Image) :
  LST.filtered_of (LST.filtered_of c) = LST.filtered_of c.
Proof.
  unfold LST.filtered_of at 1.
  rewrite list_filter_all.
  - unfold LST.filtered_of, sort. apply isort_sorted_id. apply isort_Sorted.
    intros x y. apply AssemblerTheorems.key_leb_total.
  - intros i Hi. unfold LST.filtered_of, sort in Hi.
    apply (Permutation_in _ (isort_perm _ _)) in Hi.
    now apply filter_In in Hi as [_ Hi].
Qed.

End RangeTheorems.

(** ** The selector list, degenerate tables and the split ratio *)

Module TableTheorems.
Import EE Table Selector Split.

(** X12.  The selector list built by the loop has two entries per candidate:
    the candidate at the even position and the label right after it. *)
Theorem interleave_shape (ps : list string) (l : string) :
  length (LST.interleave ps l) = (2 * length ps)%nat
  /\ (forall (i : nat) (p : string),
        ps !! i = Some p ->
        LST.interleave ps l !! (2 * i)%nat = Some p
        /\ LST.interleave ps l !! (2 * i + 1)%nat = Some l).
Proof.
  unfold LST.interleave. rewrite SelectorTheorems.interleave_flat. cbn [app].
  split.
  - induction ps as [|p ps IH]; cbn [flat_map app length]; [reflexivity|].
    rewrite IH. lia.
  - induction ps as [|q ps IH]; intros i p Hi; [discriminate|].
    destruct i as [|i].
    + injection Hi as ->. split; reflexivity.
    + cbn [flat_map app]. replace (2 * S i)%nat with (S (S (2 * i))) by lia.
      cbn [Nat.add]. apply (IH i p Hi).
Qed.

Lemma interleave_shape_witness :
  LST.predictors !! 3%nat = Some "NDMI"%string
  /\ LST.predictorsLst !! 6%nat = Some "NDMI"%string
  /\ LST.predictorsLst !! 7%nat = Some LST.label.
Proof.
  assert (Hi : LST.predictors !! 3%nat = Some "NDMI"%string) by reflexivity.
  destruct (interleave_shape LST.predictors LST.label) as [_ Hpos].
  split; [exact Hi|exact (Hpos 3%nat "NDMI"%string Hi)].
Defined.

Lemma length_rows (a b : string) (t : FeatureCollection) :
  (length (rows a b t) <= length t)%nat.
Proof.
  unfold rows. induction t as [|s t IH]; cbn [omap list_omap length]; [lia|].
  destruct (s !! a), (s !! b); cbn [length]; lia.
Qed.

Lemma scaled_variance_short (xs : list Q) :
  (length xs <= 1)%nat -> (scaled_variance xs == 0)%Q.
Proof.
  destruct xs as [|x [|y xs]]; cbn [length]; intros Hlen; [| |lia].
  - reflexivity.
  - unfold scaled_variance, Qsum. cbn [length List.map fold_right Z.of_nat].
    change (inject_Z (Z.pos (Pos.of_succ_nat 0))) with 1%Q. ring.
Qed.

Lemma sorted_all_undefined (h : bool) (c : list Ranked) :
  Forall (fun e => r2 e = None) c ->
  Sorted (fun a b => score_ge h a b = true) c.
Proof.
  induction 1 as [|e c He Hc IH]; constructor; [assumption|].
  destruct Hc as [|e' c He' _]; constructor.
  unfold score_ge. now rewrite He, He'.
Qed.

(** X13.  With fewer than two rows in the table no correlation is defined:
    every candidate has an undefined score, and the selection is the
    first K candidates in the order they are listed. *)
Theorem small_table_selection `{Platform} (k : nat) (ps : list string)
    (t : FeatureCollection) :
  (length t <= 1)%nat ->
  (forall b, score t b = None)
  /\ LST.modelFeatures_of k ps t = firstn k ps.
Proof.
  intros Hlen.
  assert (Hscore : forall b, score t b = None).
  { intros b. apply SelectorTheorems.zero_variance_score.
    unfold zero_variance. apply scaled_variance_short.
    rewrite length_map. pose proof (length_rows b LST.label t). lia. }
  split; [exact Hscore|].
  rewrite SelectorTheorems.modelFeatures_of_ranked,
    SelectorTheorems.correlation_of_map.
  unfold ranked. rewrite RangeTheorems.isort_sorted_id.
  - rewrite <- firstn_map, List.map_map. cbn [feature]. now rewrite List.map_id.
  - apply sorted_all_undefined. apply List.Forall_forall. intros e He.
    apply in_map_iff in He as (b & <- & _). apply Hscore.
Qed.

Lemma small_table_selection_witness :
  (length ([Demo.row 1 1 5 10] : list Sample) <= 1)%nat
  /\ LST.modelFeatures_of (H := Demo.platform) 2 ["C"; "B"; "A"]%string
       [Demo.row 1 1 5 10]
     = ["C"; "B"]%string.
Proof.
  assert (Hlen : (length ([Demo.row 1 1 5 10] : list Sample) <= 1)%nat)
    by (cbn [length]; lia).
  split; [exact Hlen|].
  destruct (small_table_selection (H := Demo.platform) 2 ["C"; "B"; "A"]%string
              [Demo.row 1 1 5 10] Hlen) as [_ Hsel].
  exact Hsel.
Defined.

Lemma sublist_list_filter {A : Type} (f g : A -> bool) (l : list A) :
  (forall x, f x = true -> g x = true) ->
  sublist (List.filter f l) (List.filter g l).
Proof.
  intros Hfg. induction l as [|x l IH]; cbn [List.filter]; [constructor|].
  destruct (f x) eqn:Ef.
  - rewrite (Hfg x Ef). now constructor.
  - destruct (g x); [now constructor|assumption].
Qed.

Lemma list_filter_none {A : Type} (f : A -> bool) (l : list A) :
  (forall x, In x l -> f x = false) -> List.filter f l = [].
Proof.
  induction l as [|x l IH]; intros Hall; [reflexivity|].
  cbn [List.filter]. rewrite (Hall x) by now left.
  apply IH. intros y Hy. apply Hall. now right.
Qed.

Lemma in_train_draw `{Platform} (r : Q) (t : FeatureCollection) (s : Sample) :
  In s (randomColumn t) ->
  exists i, (i < length t)%nat /\ in_train r s = Qle_bool (ee_random 0 i) r.
Proof.
  intros Hs. destruct (SplitTheorems.randomColumn_In t s Hs) as (i & s0 & Hi & ->).
  exists i. split; [now apply lookup_lt_Some in Hi|].
  unfold in_train. now rewrite lookup_insert_eq.
Qed.

(** X14.  The train subset grows with the ratio: the subset of a ratio is a
    sublist of the subset of every larger ratio.  A ratio at or above
    every draw puts the whole table in the train subset, and a ratio
    below every draw leaves the train subset empty. *)
Theorem train_ratio_monotone `{Platform} (r r' : Q) (t : FeatureCollection) :
  ((r <= r')%Q -> sublist (LST.train_of r t) (LST.train_of r' t))
  /\ ((forall i, (i < length t)%nat -> (ee_random 0 i <= r)%Q) ->
      LST.train_of r t = randomColumn t)
  /\ ((forall i, (i < length t)%nat -> (r < ee_random 0 i)%Q) ->
      LST.train_of r t = []).
Proof.
  split; [|split].
  - intros Hr. unfold LST.train_of, filter_lte.
    apply sublist_list_filter. intros s.
    destruct (s !! "random"%string) as [x|]; [|discriminate].
    rewrite !Qle_bool_iff. intros Hx. now apply Qle_trans with r.
  - intros Hall. unfold LST.train_of, filter_lte.
    apply RangeTheorems.list_filter_all. intros s Hs.
    destruct (in_train_draw r t s Hs) as (i & Hi & Heq).
    unfold in_train in Heq. rewrite Heq. apply Qle_bool_iff. now apply Hall.
  - intros Hall. unfold LST.train_of, filter_lte.
    apply list_filter_none. intros s Hs.
    destruct (in_train_draw r t s Hs) as (i & Hi & Heq).
    unfold in_train in Heq. rewrite Heq.
    apply BandFacts.Qle_bool_false. now apply Hall.
Qed.

Lemma train_ratio_monotone_witness :
  ((1 # 2) <= (7 # 10))%Q
  /\ sublist (LST.train_of (H := Demo.platform) (1 # 2) Demo.table)
             (LST.train_of (H := Demo.platform) (7 # 10) Demo.table).
Proof.
  assert (Hr : ((1 # 2) <= (7 # 10))%Q) by (unfold Qle; simpl; lia).
  destruct (train_ratio_monotone (H := Demo.platform) (1 # 2) (7 # 10) Demo.table)
    as [Hsub _].
  split; [exact Hr|exact (Hsub Hr)].
Defined.

End TableTheorems.

(** ** Values of the score *)

Module ScoreTheorems.
Import EE Table Selector Columns.
Local Open Scope Q_scope.

Lemma inject_length_cons {A : Type} (x : A) (l : list A) :
  inject_Z (Z.of_nat (length (x :: l))) == inject_Z (Z.of_nat (length l)) + 1.
Proof.
  cbn [length]. rewrite Nat2Z.inj_succ, <- Z.add_1_r, inject_Z_plus.
  reflexivity.
Qed.

(** The sums of a list of rows whose first column is a linear function of
    the second. *)
Lemma sums_linear (a c : Q) (r : list (Q * Q)) :
  Forall (fun xy => fst xy == a * snd xy + c) r ->
  let n := inject_Z (Z.of_nat (length r)) in
  let sy := Qsum (List.map snd r) in
  let syy := Qsum (List.map (fun y => y * y) (List.map snd r)) in
  Qsum (List.map fst r) == a * sy + n * c
  /\ Qsum (List.map (fun x => x * x) (List.map fst r))
     == a * a * syy + 2 * a * c * sy + n * c * c
  /\ Qsum (List.map (fun xy => fst xy * snd xy) r) == a * syy + c * sy.
Proof.
  induction 1 as [|[x y] r Hxy Hr IH].
  - cbn. repeat split; ring.
  - cbv zeta in IH |- *. destruct IH as (H1 & H2 & H3).
    rewrite inject_length_cons.
    cbn [List.map Qsum fold_right fst snd] in *.
    fold (Qsum (List.map fst r)) in *.
    fold (Qsum (List.map snd r)) in *.
    fold (Qsum (List.map (fun x => x * x) (List.map fst r))) in *.
    fold (Qsum (List.map (fun y => y * y) (List.map snd r))) in *.
    fold (Qsum (List.map (fun xy => fst xy * snd xy) r)) in *.
    rewrite H1, H2, H3, Hxy. repeat split; ring.
Qed.

(** X15.  A candidate that is, on every row, the same linear function of the
    label with a non-zero slope has score 1, provided the label varies. *)
Theorem score_linear (t : FeatureCollection) (b : string) (a c : Q) :
  ~ a == 0 ->
  Forall (fun xy => fst xy == a * snd xy + c) (rows b LST.label t) ->
  ~ scaled_variance (List.map snd (rows b LST.label t)) == 0 ->
  score t b = Some 1.
Proof.
  intros Ha Hlin Hvar.
  destruct (sums_linear a c _ Hlin) as (H1 & H2 & H3). cbv zeta in H1, H2, H3.
  set (r := rows b LST.label t) in *.
  set (v := scaled_variance (List.map snd r)) in *.
  assert (Hcov : scaled_covariance r == a * v).
  { unfold scaled_covariance, v, scaled_variance.
    rewrite length_map, H1, H3. ring. }
  assert (Hvx : scaled_variance (List.map fst r) == a * a * v).
  { unfold v, scaled_variance. rewrite !length_map, H1, H2. ring. }
  unfold score, pow2, pearsonsCorrelation. cbn [cov vv]. fold r v.
  assert (Hnz : ~ scaled_variance (List.map fst r) * v == 0).
  { rewrite Hvx. intros Hz.
    apply Qmult_integral in Hz as [Hz|Hz]; [|contradiction].
    apply Qmult_integral in Hz as [Hz|Hz]; [|contradiction].
    apply Qmult_integral in Hz as [Hz|Hz]; contradiction. }
  destruct (Qeq_bool _ 0) eqn:E; [apply Qeq_bool_iff in E; contradiction|].
  f_equal. change 1 with (Qred 1). apply Qred_complete.
  rewrite Hcov, Hvx. field. repeat split; assumption.
Qed.

(** Candidate A of the concrete table is the label divided by 10. *)
Lemma score_linear_witness :
  ~ (1 # 10) == 0
  /\ Forall (fun xy => fst xy == (1 # 10) * snd xy + 0) (rows "A" LST.label Demo.table)
  /\ ~ scaled_variance (List.map snd (rows "A" LST.label Demo.table)) == 0
  /\ score Demo.table "A" = Some 1.
Proof.
  assert (Ha : ~ (1 # 10) == 0) by discriminate.
  assert (Hlin : Forall (fun xy => fst xy == (1 # 10) * snd xy + 0)
                        (rows "A" LST.label Demo.table)).
  { vm_compute. repeat constructor. }
  assert (Hvar : ~ scaled_variance (List.map snd (rows "A" LST.label Demo.table)) == 0).
  { vm_compute. discriminate. }
  split; [exact Ha|split; [exact Hlin|split; [exact Hvar|]]].
  exact (score_linear Demo.table "A" (1 # 10) 0 Ha Hlin Hvar).
Defined.


(** *** The score lies between 0 and 1 *)

Lemma square_nonneg (x : Q) : 0 <= x * x.
Proof.
  destruct (Qlt_le_dec x 0) as [Hneg|Hpos].
  - setoid_replace (x * x) with ((- x) * (- x)) using relation Qeq
      by ring.
    apply Qmult_le_0_compat; lra.
  - now apply Qmult_le_0_compat.
Qed.

Lemma quadratic_nonneg (k : Q) (uv : list (Q * Q)) :
  0 <= norm1 uv - 2 * k * dot uv + k * k * norm2 uv.
Proof.
  unfold norm1, norm2, dot.
  induction uv as [|[u v] uv IH]; cbn [List.map Qsum fold_right fst snd].
  - lra.
  - fold (Qsum (List.map (fun p => fst p * fst p) uv)) in *.
    fold (Qsum (List.map (fun p => snd p * snd p) uv)) in *.
    fold (Qsum (List.map (fun p => fst p * snd p) uv)) in *.
    pose proof (square_nonneg (u - k * v)) as Hsq.
    set (a := Qsum (List.map (fun p => fst p * fst p) uv)) in *.
    set (b := Qsum (List.map (fun p => snd p * snd p) uv)) in *.
    set (s := Qsum (List.map (fun p => fst p * snd p) uv)) in *.
    setoid_replace (u * u + a - 2 * k * (u * v + s) + k * k * (v * v + b))
      with ((u - k * v) * (u - k * v) + (a - 2 * k * s + k * k * b)) using relation Qeq
      by ring.
    lra.
Qed.

Lemma norm2_nonneg (uv : list (Q * Q)) : 0 <= norm2 uv.
Proof.
  unfold norm2. induction uv as [|[u v] uv IH]; cbn [List.map Qsum fold_right snd].
  - lra.
  - fold (Qsum (List.map (fun p => snd p * snd p) uv)) in *.
    pose proof (square_nonneg v). lra.
Qed.

Lemma norm1_nonneg (uv : list (Q * Q)) : 0 <= norm1 uv.
Proof.
  unfold norm1. induction uv as [|[u v] uv IH]; cbn [List.map Qsum fold_right fst].
  - lra.
  - fold (Qsum (List.map (fun p => fst p * fst p) uv)) in *.
    pose proof (square_nonneg u). lra.
Qed.

(** The inequality of Cauchy and Schwarz for two columns. *)
Lemma cauchy_schwarz (uv : list (Q * Q)) :
  dot uv * dot uv <= norm1 uv * norm2 uv.
Proof.
  pose proof (norm2_nonneg uv) as Hb.
  destruct (Qlt_le_dec 0 (norm2 uv)) as [Hpos|Hzero].
  - pose proof (quadratic_nonneg (dot uv / norm2 uv) uv) as Hq.
    assert (Hnz : ~ norm2 uv == 0) by lra.
    setoid_replace (norm1 uv - 2 * (dot uv / norm2 uv) * dot uv
                    + dot uv / norm2 uv * (dot uv / norm2 uv) * norm2 uv)
      with ((norm1 uv * norm2 uv - dot uv * dot uv) / norm2 uv) using relation Qeq in Hq
      by (field; assumption).
    assert (Hmul : 0 <= (norm1 uv * norm2 uv - dot uv * dot uv) / norm2 uv * norm2 uv).
    { apply Qmult_le_0_compat; lra. }
    setoid_replace ((norm1 uv * norm2 uv - dot uv * dot uv) / norm2 uv * norm2 uv)
      with (norm1 uv * norm2 uv - dot uv * dot uv) using relation Qeq in Hmul
      by (field; assumption).
    lra.
  - assert (Hb0 : norm2 uv == 0) by lra.
    assert (Hs : dot uv == 0).
    { destruct (Qeq_dec (dot uv) 0) as [Hs|Hs]; [assumption|exfalso].
      pose proof (quadratic_nonneg ((norm1 uv + 1) / (2 * dot uv)) uv) as Hq.
      rewrite Hb0 in Hq.
      setoid_replace (norm1 uv - 2 * ((norm1 uv + 1) / (2 * dot uv)) * dot uv
                      + (norm1 uv + 1) / (2 * dot uv)
                        * ((norm1 uv + 1) / (2 * dot uv)) * 0)
        with (- (1)) using relation Qeq in Hq
      by (field; assumption).
      lra. }
    rewrite Hs, Hb0. lra.
Qed.


Lemma centred_sums (k cx cy : Q) (r : list (Q * Q)) :
  let n := inject_Z (Z.of_nat (length r)) in
  let sx := Qsum (List.map fst r) in
  let sy := Qsum (List.map snd r) in
  dot (centred k cx cy r)
  == k * k * Qsum (List.map (fun xy => fst xy * snd xy) r)
     - k * cy * sx - k * cx * sy + n * cx * cy
  /\ norm1 (centred k cx cy r)
     == k * k * Qsum (List.map (fun x => x * x) (List.map fst r))
        - 2 * k * cx * sx + n * cx * cx
  /\ norm2 (centred k cx cy r)
     == k * k * Qsum (List.map (fun y => y * y) (List.map snd r))
        - 2 * k * cy * sy + n * cy * cy.
Proof.
  unfold dot, norm1, norm2, centred.
  induction r as [|[x y] r IH].
  - cbn. repeat split; ring.
  - cbv zeta in IH |- *. destruct IH as (H1 & H2 & H3).
    rewrite inject_length_cons.
    cbn [List.map Qsum fold_right fst snd] in *.
    fold (Qsum (List.map fst r)) in *.
    fold (Qsum (List.map snd r)) in *.
    fold (Qsum (List.map (fun x => x * x) (List.map fst r))) in *.
    fold (Qsum (List.map (fun y => y * y) (List.map snd r))) in *.
    fold (Qsum (List.map (fun xy => fst xy * snd xy) r)) in *.
    fold (Qsum (List.map (fun p => fst p * snd p)
                  (List.map (fun xy => (k * fst xy - cx, k * snd xy - cy)) r))) in *.
    fold (Qsum (List.map (fun p => fst p * fst p)
                  (List.map (fun xy => (k * fst xy - cx, k * snd xy - cy)) r))) in *.
    fold (Qsum (List.map (fun p => snd p * snd p)
                  (List.map (fun xy => (k * fst xy - cx, k * snd xy - cy)) r))) in *.
    rewrite H1, H2, H3. repeat split; ring.
Qed.

(** The squared covariance of two columns is at most the product of
    their variances, and a variance is never negative. *)
Lemma covariance_bound (r : list (Q * Q)) :
  0 <= scaled_variance (List.map fst r)
  /\ 0 <= scaled_variance (List.map snd r)
  /\ scaled_covariance r * scaled_covariance r
     <= scaled_variance (List.map fst r) * scaled_variance (List.map snd r).
Proof.
  destruct r as [|xy0 r0].
  - cbn. repeat split; discriminate.
  - set (r := xy0 :: r0).
    set (n := inject_Z (Z.of_nat (length r))).
    assert (Hn : 0 < n).
    { unfold n, r. cbn [length]. rewrite Nat2Z.inj_succ.
      unfold Qlt. cbn. lia. }
    set (sx := Qsum (List.map fst r)). set (sy := Qsum (List.map snd r)).
    destruct (centred_sums n sx sy r) as (Hd & H1 & H2).
    cbv zeta in Hd, H1, H2. fold n sx sy in Hd, H1, H2.
    assert (Hdot : dot (centred n sx sy r) == n * scaled_covariance r).
    { rewrite Hd. unfold scaled_covariance. fold n sx sy. ring. }
    assert (Hn1 : norm1 (centred n sx sy r) == n * scaled_variance (List.map fst r)).
    { rewrite H1. unfold scaled_variance. rewrite length_map. fold n sx. ring. }
    assert (Hn2 : norm2 (centred n sx sy r) == n * scaled_variance (List.map snd r)).
    { rewrite H2. unfold scaled_variance. rewrite length_map. fold n sy. ring. }
    pose proof (norm1_nonneg (centred n sx sy r)) as Hp1.
    pose proof (norm2_nonneg (centred n sx sy r)) as Hp2.
    pose proof (cauchy_schwarz (centred n sx sy r)) as Hcs.
    rewrite Hn1 in Hp1. rewrite Hn2 in Hp2. rewrite Hdot, Hn1, Hn2 in Hcs.
    set (c := scaled_covariance r) in *.
    set (vx := scaled_variance (List.map fst r)) in *.
    set (vy := scaled_variance (List.map snd r)) in *.
    split; [|split].
    + apply (Qmult_le_l _ _ n Hn). lra.
    + apply (Qmult_le_l _ _ n Hn). lra.
    + assert (Hnn : 0 < n * n) by (apply Qmult_lt_0_compat; assumption).
      apply (Qmult_le_l _ _ (n * n) Hnn).
      setoid_replace (n * n * (c * c)) with (n * c * (n * c)) using relation Qeq
        by ring.
      setoid_replace (n * n * (vx * vy)) with (n * vx * (n * vy)) using relation Qeq
        by ring.
      exact Hcs.
Qed.

(** X16.  Whenever the score of a candidate is defined it lies between 0 and
    1. *)
Theorem score_bounds (t : FeatureCollection) (b : string) (v : Q) :
  score t b = Some v -> 0 <= v <= 1.
Proof.
  unfold score, pow2, pearsonsCorrelation. cbn [cov vv].
  set (r := rows b LST.label t).
  destruct (covariance_bound r) as (Hx & Hy & Hcs).
  set (c := scaled_covariance r) in *.
  set (vx := scaled_variance (List.map fst r)) in *.
  set (vy := scaled_variance (List.map snd r)) in *.
  destruct (Qeq_bool (vx * vy) 0) eqn:E; [discriminate|].
  intros Hv. injection Hv as <-. rewrite Qred_correct.
  assert (Hpos : 0 < vx * vy).
  { destruct (Qlt_le_dec 0 (vx * vy)) as [Hlt|Hle]; [assumption|exfalso].
    pose proof (Qmult_le_0_compat _ _ Hx Hy) as Hge.
    assert (Hz : vx * vy == 0) by lra.
    apply Qeq_bool_iff in Hz. congruence. }
  split.
  - apply Qle_shift_div_l; [assumption|].
    pose proof (square_nonneg c). lra.
  - apply Qle_shift_div_r; [assumption|]. lra.
Qed.

Lemma score_bounds_witness :
  score Demo.table "B" = Some 0 /\ 0 <= 0 <= 1.
Proof.
  assert (Hs : score Demo.table "B" = Some 0) by (vm_compute; reflexivity).
  split; [exact Hs|exact (score_bounds Demo.table "B" 0 Hs)].
Defined.

End ScoreTheorems.

(** ** Rows of the sample and extent of a prediction *)

Module SampleTheorems.
Import EE Table Stack.

Lemma read_bands (p : Pixel) (l : list (string * Band)) (kv : list (string * Q)) :
  mapM (fun nb => (fun v => (fst nb, v)) <$> snd nb p) l = Some kv ->
  forall n,
    (list_to_map kv : gmap string Q) !! n
    = match find_band n l with Some b => b p | None => None end
    /\ (In n (List.map fst l) -> is_Some ((list_to_map kv : gmap string Q) !! n)).
Proof.
  revert kv. induction l as [|[m b] l IH]; intros kv Hkv n.
  - injection Hkv as <-. split; [reflexivity|intros []].
  - cbn in Hkv. destruct (b p) as [v|] eqn:Ev; [|discriminate]. cbn in Hkv.
    destruct (mapM _ l) as [kv'|] eqn:Ekv; [|discriminate].
    cbn in Hkv. injection Hkv as <-.
    destruct (IH kv' eq_refl n) as [Hlook Hin].
    cbn [list_to_map foldr fst snd uncurry]. unfold find_band.
    cbn [List.find fst snd]. cbn [List.map fst].
    destruct (String.eqb n m) eqn:E.
    + apply String.eqb_eq in E. subst m.
      rewrite lookup_insert_eq. cbn. rewrite Ev. split; [reflexivity|eauto].
    + assert (Hne : m <> n).
      { intros ->. rewrite String.eqb_refl in E. discriminate. }
      rewrite lookup_insert_ne by assumption. split; [exact Hlook|].
      intros [Heq|Hn]; [contradiction|now apply Hin].
Qed.

(** X17.  Every row of the training sample is the stack of features and label
    read at one of the drawn points: each column holds the value of the
    band of that name there, and no band of the stack is missing from a
    row. *)
Theorem sample_rows `{Platform} (run : Run) (s : Sample) :
  let stack := cat (LST.features run) [LST.lstLandsat run] in
  In s (LST.sample run) ->
  exists p,
    In p (ee_stratifiedPoints (band "elevation_class" stack) (run_roi run)
            1000 30 (run_seed run))
    /\ (forall n, s !! n = band n stack p)
    /\ (forall n, In n (bandNames stack) -> is_Some (s !! n)).
Proof.
  intros stack Hs. unfold LST.sample, stratifiedSample in Hs. fold stack in Hs.
  apply list_elem_of_In, list_elem_of_omap in Hs as (p & Hp & Hread).
  exists p. split; [now apply list_elem_of_In|].
  unfold read_pixel in Hread.
  destruct (mapM _ (bands stack)) as [kv|] eqn:Ekv; [|discriminate].
  cbn in Hread. injection Hread as <-.
  split; intros n.
  - destruct (read_bands p _ kv Ekv n) as [Hlook _]. rewrite Hlook.
    unfold band. now destruct (find_band n (bands stack)).
  - now destruct (read_bands p _ kv Ekv n) as [_ Hin].
Qed.


(** The first row of the sample of the concrete run has its label. *)
Lemma sample_rows_witness :
  let s := nth 0 (LST.sample (H := Demo.platform) Demo.run) ∅ in
  In s (LST.sample (H := Demo.platform) Demo.run)
  /\ is_Some (s !! "LST"%string).
Proof.
  intros s.
  assert (Hlen : (0 < length (LST.sample (H := Demo.platform) Demo.run))%nat).
  { replace (length (LST.sample (H := Demo.platform) Demo.run)) with 4%nat
      by (vm_compute; reflexivity).
    lia. }
  assert (Hin : In s (LST.sample (H := Demo.platform) Demo.run))
    by (apply nth_In; exact Hlen).
  split; [exact Hin|].
  destruct (sample_rows (H := Demo.platform) Demo.run s Hin) as (p & _ & _ & Hcols).
  apply Hcols. vm_compute. do 12 right. left. reflexivity.
Defined.

Lemma band_clip_outside (g : Geometry) (n : string) (i : Image) (p : Pixel) :
  inside g p = false -> band n (clip g i) p = None.
Proof.
  intros Hout. unfold band, clip, find_band. cbn [bands].
  induction (bands i) as [|[m b] l IH]; cbn [List.map List.find fst snd];
    [reflexivity|].
  destruct (String.eqb n m); [|exact IH].
  cbn. unfold band_clip. now rewrite Hout.
Qed.

Lemma find_band_app (n : string) (l1 l2 : list (string * Band)) :
  find_band n (l1 ++ l2)
  = match find_band n l1 with
    | Some b => Some b
    | None => find_band n l2
    end.
Proof.
  unfold find_band. induction l1 as [|[m b] l1 IH]; cbn [app List.find fst];
    [reflexivity|].
  destruct (String.eqb n m); [reflexivity|exact IH].
Qed.

Lemma mapM_None_elem {A B : Type} (f : A -> option B) (l : list A) (x : A) :
  In x l -> f x = None -> mapM f l = None.
Proof.
  intros Hin Hx. induction l as [|y l IH]; [destruct Hin|].
  cbn. destruct Hin as [->|Hin].
  - now rewrite Hx.
  - destruct (f y); [|reflexivity]. cbn. now rewrite (IH Hin).
Qed.

(** A reflectance band or an index of the stack of a day has no value
    outside the region of the prediction. *)
Lemma spectral_band_outside `{Platform} (run : Run) (aoi : Geometry) (day : Date)
    (n : string) (p : Pixel) :
  inside aoi p = false ->
  String.prefix "B" n = true \/ In n ["NDMI"; "NBR"; "MNDWI2"]%string ->
  band n (LST.all run aoi day) p = None.
Proof.
  intros Hout Hn. unfold LST.all. cbv zeta.
  fold (day_composite run aoi day).
  set (img := day_composite run aoi day).
  assert (Himg : forall m, band m img p = None)
    by (intros m; now apply band_clip_outside).
  unfold band at 1. unfold cat. cbn [bands]. rewrite find_band_app.
  destruct Hn as [HB|Hidx].
  - pose proof (Himg n) as Hn. unfold band in Hn.
    destruct (find_band n (bands img)) as [b|]; [exact Hn|].
    destruct n as [|c n]; [discriminate|].
    cbn [String.prefix] in HB.
    destruct (Ascii.ascii_dec _ c) as [<-|]; [|discriminate].
    unfold rename, LST.tpi, LST.slope, map_bands. cbn [bands List.map concat app].
    destruct (bands (LST.srtm run)) as [|[m b] l]; reflexivity.
  - assert (Hpast : find_band n (bands img) = None).
    { pose proof (BandTheorems.find_band_past n (bands img) [] ) as Hp.
      rewrite app_nil_r in Hp. apply Hp.
      - destruct Hidx as [<-|[<-|[<-|[]]]]; reflexivity.
      - apply (BandTheorems.composite_names_B median_of). }
    rewrite Hpast. unfold rename, normalizedDifference.
    cbn [bands List.map concat app combine snd]. unfold find_band.
    destruct Hidx as [<-|[<-|[<-|[]]]];
      cbn [List.find fst snd String.eqb Ascii.eqb Bool.eqb fmap option_fmap
           option_map];
      now rewrite !Himg.
Qed.

(** X18.  On a day with data, when the trained model reads at least one
    reflectance band or index, the predicted band has no value outside
    the region of the prediction. *)
Theorem prediction_confined `{Platform} (run : Run) (s : Date) (aoi : Geometry)
    (offset : Z) (n : string) (p : Pixel) :
  0 < size (LST.s2day run aoi (advance s offset)) ->
  In n (inputs (LST.model run)) ->
  String.prefix "B" n = true \/ In n ["NDMI"; "NBR"; "MNDWI2"]%string ->
  inside aoi p = false ->
  band "LST" (LST.predictDay run s aoi offset) p = None.
Proof.
  intros Hsize Hin Hn Hout.
  rewrite SeriesTheorems.predictDay_valid by assumption.
  change (predict (LST.model run)
            <$> mapM (fun m => band m (LST.all run aoi (advance s offset)) p)
                     (inputs (LST.model run)) = None).
  rewrite (mapM_None_elem _ _ n Hin); [reflexivity|].
  now apply spectral_band_outside.
Qed.

(** Pixel (5, 5) lies outside the region of the concrete run, whose model
    reads band B4. *)
Lemma prediction_confined_witness :
  0 < size (LST.s2day Demo.run Demo.roi (advance 10 0))
  /\ In "B4"%string (inputs (LST.model (H := Demo.platform) Demo.run))
  /\ inside Demo.roi (5, 5) = false
  /\ band "LST" (LST.predictDay (H := Demo.platform) Demo.run 10 Demo.roi 0) (5, 5)
     = None.
Proof.
  assert (Hsize : 0 < size (LST.s2day Demo.run Demo.roi (advance 10 0)))
    by reflexivity.
  assert (Hin : In "B4"%string (inputs (LST.model (H := Demo.platform) Demo.run))).
  { replace (inputs (LST.model (H := Demo.platform) Demo.run))
      with ["B4"; "B8"; "B11"]%string by (vm_compute; reflexivity).
    now left. }
  assert (Hout : inside Demo.roi (5, 5) = false) by reflexivity.
  split; [exact Hsize|split; [exact Hin|split; [exact Hout|]]].
  exact (prediction_confined (H := Demo.platform) Demo.run 10 Demo.roi 0 "B4" (5, 5)
           Hsize Hin (or_introl eq_refl) Hout).
Defined.

End SampleTheorems.

(** ** The label *)

Module LabelTheorems.
Import EE Table Stack.

Lemma composite_landsat_names (r : list Q -> option Q) (g : Geometry)
    (c : ImageCollection) :
  bandNames (clip g (composite r (List.map LST.cloudMaskLandsat c)))
  = match c with [] => [] | _ :: _ => ["LST"%string] end.
Proof. destruct c as [|i c]; reflexivity. Qed.

(** X19.  The label image has the single band LST when at least one
    Landsat scene of either collection meets the training filter, and no
    band at all otherwise; where it has a value, the pixel lies in the
    region of interest. *)
Theorem label_band (run : Run) :
  bandNames (LST.lstLandsat run)
  = (if List.existsb (LST.filter run) (LST.l8 run ++ LST.l9 run)
     then ["LST"%string] else [])
  /\ (forall p, inside (run_roi run) p = false ->
                band "LST" (LST.lstLandsat run) p = None).
Proof.
  split.
  - unfold LST.lstLandsat, mean. rewrite composite_landsat_names.
    induction (LST.l8 run ++ LST.l9 run) as [|i l IH]; [reflexivity|].
    cbn [List.filter List.existsb]. destruct (LST.filter run i); [reflexivity|].
    exact IH.
  - intros p Hout. unfold LST.lstLandsat.
    now apply SampleTheorems.band_clip_outside.
Qed.

End LabelTheorems.

(** * Properties of the monthly false colour script *)

(** ** The calendar *)

Module CalendarFacts.
Import EE Calendar.

Lemma year_step (y : Z) :
  days_before_year (y + 1)
  = days_before_year y + 365 + (if is_leap y then 1 else 0).
Proof.
  unfold days_before_year, is_leap.
  destruct (Z.eqb_spec (y mod 4) 0), (Z.eqb_spec (y mod 100) 0),
           (Z.eqb_spec (y mod 400) 0);
    cbn [negb andb orb]; Z.div_mod_to_equations; lia.
Qed.

Lemma years_apart (y : Z) (n : nat) :
  days_before_year y + 365 * Z.of_nat n <= days_before_year (y + Z.of_nat n).
Proof.
  induction n as [|n IH]; [replace (y + Z.of_nat 0) with y by lia; lia|].
  rewrite Nat2Z.inj_succ.
  replace (y + Z.succ (Z.of_nat n)) with (y + Z.of_nat n + 1) by lia.
  rewrite year_step. destruct (is_leap (y + Z.of_nat n)); lia.
Qed.

Lemma later_year (y y' : Z) :
  y < y' -> days_before_year y + 365 <= days_before_year y'.
Proof.
  intros Hlt. pose proof (years_apart y (Z.to_nat (y' - y))) as Hn.
  replace (y + Z.of_nat (Z.to_nat (y' - y))) with y' in Hn by lia. lia.
Qed.

Lemma month_cases (m : Z) :
  1 <= m <= 12 ->
  m = 1 \/ m = 2 \/ m = 3 \/ m = 4 \/ m = 5 \/ m = 6 \/ m = 7 \/ m = 8
  \/ m = 9 \/ m = 10 \/ m = 11 \/ m = 12.
Proof. lia. Qed.

Ltac calendar_values :=
  repeat match goal with
    | |- context [fold_right Z.add 0 (firstn ?n ?l)] =>
        let v := eval vm_compute in (fold_right Z.add 0 (firstn n l)) in
        change (fold_right Z.add 0 (firstn n l)) with v
    | |- context [nth ?n ?l 31] =>
        let v := eval vm_compute in (nth n l 31) in
        change (nth n l 31) with v
    end.

Ltac each_month H :=
  apply month_cases in H;
  repeat (destruct H as [->|H]); [..|subst].

Lemma month_start_bounds (y m : Z) :
  1 <= m <= 12 -> 0 <= days_before_month y m <= 335.
Proof.
  intros Hm. unfold days_before_month, month_lengths.
  each_month Hm; destruct (is_leap y); calendar_values; lia.
Qed.

Lemma days_in_month_bounds (y m : Z) :
  1 <= m <= 12 -> 28 <= days_in_month y m <= 31.
Proof.
  intros Hm. unfold days_in_month, month_lengths.
  each_month Hm; destruct (is_leap y); calendar_values; lia.
Qed.

(** Advancing the first of a month by one month gives the first of the
    next month: the month is as long as the calendar says. *)
Lemma advance_month_first (y m : Z) :
  1 <= m <= 12 ->
  to_days (advance_month (fromYMD y m 1))
  = to_days (fromYMD y m 1) + days_in_month y m.
Proof.
  intros Hm. unfold advance_month, fromYMD, to_days. cbn [yr mo dy].
  destruct (Z.eqb_spec m 12) as [->|Hne].
  - rewrite year_step.
    unfold days_before_month, days_in_month, month_lengths.
    destruct (is_leap y), (is_leap (y + 1)); calendar_values; lia.
  - pose proof (days_in_month_bounds y (m + 1)) as Hb.
    rewrite Z.min_l by lia.
    unfold days_before_month, days_in_month, month_lengths.
    each_month Hm; try lia; destruct (is_leap y); calendar_values; lia.
Qed.

Lemma december_31 (y : Z) :
  to_days (fromYMD y 12 31) + 1 = to_days (advance_month (fromYMD y 12 1))
  /\ to_days (fromYMD y 12 31) = to_days (fromYMD y 12 1) + 30.
Proof.
  rewrite advance_month_first by lia.
  unfold fromYMD, to_days, days_in_month, month_lengths. cbn [yr mo dy].
  destruct (is_leap y); calendar_values; lia.
Qed.

(** The firsts of the months of a year are in increasing order, and all
    of them are before the firsts of the months of a later year. *)
Lemma month_starts_sorted (y : Z) :
  StronglySorted Z.lt
    (List.map (fun m => to_days (fromYMD y m 1)) (sequence 1 12)).
Proof.
  unfold fromYMD, to_days, days_before_month, month_lengths. cbn [yr mo dy].
  change (sequence 1 12) with [1; 2; 3; 4; 5; 6; 7; 8; 9; 10; 11; 12].
  cbn [List.map].
  destruct (is_leap y); calendar_values; repeat constructor; lia.
Qed.

Lemma month_starts_years (y y' m m' : Z) :
  y < y' -> 1 <= m <= 12 -> 1 <= m' <= 12 ->
  to_days (fromYMD y m 1) < to_days (fromYMD y' m' 1).
Proof.
  intros Hy Hm Hm'. unfold fromYMD, to_days. cbn [yr mo dy].
  pose proof (later_year y y' Hy).
  pose proof (month_start_bounds y m Hm).
  pose proof (month_start_bounds y' m' Hm'). lia.
Qed.

Lemma in_sequence (a b x : Z) : In x (sequence a b) <-> a <= x <= b.
Proof.
  unfold sequence. rewrite in_map_iff. split.
  - intros (i & <- & Hi). apply in_seq in Hi. lia.
  - intros Hx. exists (Z.to_nat (x - a)). split; [lia|]. apply in_seq. lia.
Qed.

End CalendarFacts.

(** ** The monthly composites *)

Module FalseColorTheorems.
Import EE Table Series Calendar CalendarFacts FalseColor BandFacts.

Lemma band_map_bands (f : Band -> Band) (n : string) (i : Image) (p : Pixel) :
  f masked p = None -> band n (map_bands f i) p = f (band n i) p.
Proof.
  intros Hf. unfold band, map_bands, find_band. cbn [bands].
  induction (bands i) as [|[m b] l IH];
    cbn [List.map List.find fst snd fmap option_fmap option_map].
  - now rewrite Hf.
  - destruct (String.eqb n m); [reflexivity|exact IH].
Qed.

Lemma band_select_list (names : list string) (n : string) (i : Image) :
  In n names -> band n (select_list names i) = band n i.
Proof.
  intros Hn. unfold band at 1. unfold select_list, find_band. cbn [bands].
  induction names as [|m names IH]; [destruct Hn|].
  cbn [List.map List.find fst snd fmap option_fmap option_map].
  destruct (String.eqb n m) eqn:E.
  - apply String.eqb_eq in E. now subst.
  - destruct Hn as [->|Hn]; [now rewrite String.eqb_refl in E|now apply IH].
Qed.

(** X20.  The mask of the false colour script returns the three bands B3,
    B4 and B8 in this order and keeps the time stamp of the scene.  A
    pixel of one of them survives exactly when the quality band has a
    value there with bits 10 and 11 both clear, and the surviving value
    is the input divided by 10000. *)
Theorem maskS2clouds_result (image : Image) (n : string) (p : Pixel) :
  In n ["B3"; "B4"; "B8"]%string ->
  bandNames (maskS2clouds image) = ["B3"; "B4"; "B8"]%string
  /\ get "system:time_start" (maskS2clouds image) = get "system:time_start" image
  /\ band n (maskS2clouds image) p
     = match band "QA60" image p with
       | Some q =>
           if Z.testbit (Qfloor q) 10 || Z.testbit (Qfloor q) 11 then None
           else (fun v => v / 10000)%Q <$> band n image p
       | None => None
       end.
Proof.
  intros Hn. split; [reflexivity|split].
  - unfold maskS2clouds, copyProperties, get. cbn [props fold_right].
    destruct (props image !! "system:time_start"%string) as [t|] eqn:E.
    + now rewrite lookup_insert_eq.
    + exact E.
  - unfold maskS2clouds. cbv zeta.
    set (qa := band "QA60" image).
    change (band n (copyProperties image ["system:time_start"%string] ?i) p)
      with (band n i p).
    rewrite band_select_list by assumption.
    unfold divide, updateMask.
    rewrite band_map_bands by reflexivity.
    unfold band_map at 1.
    rewrite band_map_bands
      by (unfold band_updateMask; now destruct (band_and _ _ p) as [m|];
          [destruct (nonzero m)|]).
    unfold band_updateMask, band_and, band_map2.
    rewrite !MaskTheorems.bit_test by lia.
    destruct (qa p) as [q|]; cbn [fmap option_fmap option_map]; [|reflexivity].
    rewrite !nonzero_bool_Q.
    destruct (Z.testbit (Qfloor q) 10), (Z.testbit (Qfloor q) 11);
      cbn [negb andb orb bool_Q nonzero]; reflexivity.
Qed.

Lemma maskS2clouds_result_witness :
  In "B8"%string ["B3"; "B4"; "B8"]%string
  /\ band "B8" (maskS2clouds (Demo.scene 10 2 (Demo.s2_bands 1))) (0, 0)
     = Some (3000 * 1 / 10000)%Q.
Proof.
  assert (Hn : In "B8"%string ["B3"; "B4"; "B8"]%string) by (simpl; auto).
  split; [exact Hn|].
  destruct (maskS2clouds_result (Demo.scene 10 2 (Demo.s2_bands 1)) "B8" (0, 0) Hn)
    as (_ & _ & Hpix).
  rewrite Hpix. reflexivity.
Defined.

Lemma get_set_all_other (kvs : list (string * Q)) (k : string) (i : Image) :
  ~ In k (List.map fst kvs) -> get k (set_all kvs i) = get k i.
Proof.
  unfold set_all. revert i.
  induction kvs as [|[k' v] kvs IH]; intros i Hk; [reflexivity|].
  cbn [fold_left fst snd]. rewrite IH.
  - unfold get, set. cbn [props]. apply lookup_insert_ne.
    intros ->. apply Hk. now left.
  - intros Hin. apply Hk. now right.
Qed.

Lemma get_set_all_in (kvs : list (string * Q)) (k : string) (v : Q) (i : Image) :
  NoDup (List.map fst kvs) -> In (k, v) kvs -> get k (set_all kvs i) = Some v.
Proof.
  unfold set_all. revert i.
  induction kvs as [|[k' v'] kvs IH]; intros i Hnd Hin; [destruct Hin|].
  cbn [List.map fst] in Hnd. apply NoDup_cons in Hnd as [Hk' Hnd].
  cbn [fold_left fst snd]. destruct Hin as [Heq|Hin].
  - injection Heq as -> ->.
    fold (set_all kvs (set k v i)). rewrite get_set_all_other.
    + unfold get, set. cbn [props]. apply lookup_insert_eq.
    + intros Hin. apply Hk'. now apply list_elem_of_In.
  - now apply IH.
Qed.

Lemma bands_set_all (kvs : list (string * Q)) (i : Image) :
  bands (set_all kvs i) = bands i.
Proof.
  unfold set_all. revert i.
  induction kvs as [|kv kvs IH]; intros i; [reflexivity|].
  cbn [fold_left]. now rewrite IH.
Qed.

Lemma month_collection_names (a : Archive) (aoi : Geometry) (year month : Z) :
  0 < size (month_collection a aoi year month) ->
  bandNames (clip aoi (median (month_collection a aoi year month)))
  = ["B3"; "B4"; "B8"]%string.
Proof.
  unfold month_collection, s2_of_year. cbv zeta.
  set (src := List.filter _ (List.filter _ (List.filter _ (asset_s2 a)))).
  generalize src. clear src. intros src.
  induction src as [|i src IH]; cbn [List.map List.filter].
  - unfold size. cbn [length Z.of_nat]. lia.
  - destruct (filter_date _ _ (maskS2clouds i)); [intros _; reflexivity|exact IH].
Qed.

(** X21.  The image of a month records the year, the month, the first of
    the month as its time stamp and, as its count, the number of masked
    scenes of the month; it is flagged noData exactly when that number
    is zero.  With scenes it has the bands B3, B4 and B8 and no flag;
    without it has the single band of the empty image, which has no
    value anywhere. *)
Theorem month_image_metadata (a : Archive) (aoi : Geometry) (year month : Z) :
  let c := month_collection a aoi year month in
  let img := month_image a aoi year month in
  get "count" img = Some (inject_Z (size c))
  /\ get "year" img = Some (inject_Z year)
  /\ get "month" img = Some (inject_Z month)
  /\ time_start img = Some (stamp (to_days (fromYMD year month 1)))
  /\ (flagged_noData img = true <-> size c = 0)
  /\ (0 < size c ->
      bandNames img = ["B3"; "B4"; "B8"]%string /\ get "noData" img = None)
  /\ (size c = 0 ->
      bandNames img = ["constant"%string]
      /\ fully_masked (band "constant" img)).
Proof.
  intros c img. unfold img, month_image. cbv zeta. fold c.
  unfold time_start, flagged_noData, filter_eq, stamp.
  destruct (0 <? size c) eqn:E;
    match goal with
    | |- context [set_all ?l ?i] => set (kvs := l); set (base := i)
    end;
    assert (Hnd : NoDup (List.map fst kvs)) by compute_done;
    assert (Hget : forall k v, In (k, v) kvs -> get k (set_all kvs base) = Some v)
      by (intros k v; now apply get_set_all_in).
  - apply Z.ltb_lt in E.
    rewrite (Hget "count"%string (inject_Z (size c))),
      (Hget "year"%string (inject_Z year)),
      (Hget "month"%string (inject_Z month)),
      (Hget "system:time_start"%string
            (inject_Z (millis (to_days (fromYMD year month 1)))))
      by (cbn [In kvs]; auto 10).
    rewrite get_set_all_other
      by (cbn [List.map fst In kvs]; intuition discriminate).
    assert (Hno : get "noData" base = None).
    { unfold base, get, clip, median, composite. destruct c; reflexivity. }
    rewrite Hno.
    split; [reflexivity|]. split; [reflexivity|]. split; [reflexivity|].
    split; [reflexivity|]. split; [split; [discriminate|lia]|].
    split; [|lia]. intros _. split; [|reflexivity].
    unfold bandNames. rewrite bands_set_all. now apply month_collection_names.
  - apply Z.ltb_ge in E.
    assert (Hz : size c = 0) by (unfold size in *; lia).
    rewrite (Hget "count"%string 0%Q),
      (Hget "year"%string (inject_Z year)),
      (Hget "month"%string (inject_Z month)),
      (Hget "noData"%string 1%Q),
      (Hget "system:time_start"%string
            (inject_Z (millis (to_days (fromYMD year month 1)))))
      by (cbn [In kvs]; auto 10).
    rewrite Hz.
    split; [reflexivity|]. split; [reflexivity|]. split; [reflexivity|].
    split; [reflexivity|]. split; [split; reflexivity|].
    split; [lia|]. intros _. split; [reflexivity|].
    intros p. reflexivity.
Qed.


(** *** The whole collection *)

Lemma time_start_month_image (a : Archive) (aoi : Geometry) (year month : Z) :
  time_start (month_image a aoi year month)
  = Some (stamp (to_days (fromYMD year month 1))).
Proof.
  unfold month_image, time_start, stamp. cbv zeta.
  destruct (0 <? size _);
    (apply get_set_all_in; [compute_done|cbn [In]; auto 10]).
Qed.

Lemma fold_left_concat {A : Type} (l : list (list A)) (acc : list A) :
  fold_left (fun prev ic => prev ++ ic) l acc = acc ++ concat l.
Proof.
  revert acc. induction l as [|x l IH]; intros acc; cbn [fold_left concat].
  - now rewrite app_nil_r.
  - rewrite IH. now rewrite <- app_assoc.
Qed.

Lemma collection_flat (a : Archive) (s e : Z) (aoi : Geometry) :
  monthlyFalseColorCollection a s e aoi
  = flat_map (fun y => List.map (month_image a aoi y) (sequence 1 12))
             (sequence s e).
Proof.
  unfold monthlyFalseColorCollection. cbv zeta.
  rewrite fold_left_concat, flat_map_concat_map. reflexivity.
Qed.

Section SortedConcat.
Context {A B : Type} (R : B -> B -> Prop) (R' : A -> A -> Prop).

Lemma StronglySorted_app (l1 l2 : list B) :
  StronglySorted R l1 -> StronglySorted R l2 ->
  (forall x y, In x l1 -> In y l2 -> R x y) ->
  StronglySorted R (l1 ++ l2).
Proof.
  induction 1 as [|x l1 Hs IH Hall]; intros H2 Hcross; [assumption|].
  cbn [app]. constructor.
  - apply IH; [assumption|]. intros a b Ha Hb. apply Hcross; [now right|assumption].
  - apply List.Forall_forall. intros y Hy. apply in_app_or in Hy as [Hy|Hy].
    + rewrite List.Forall_forall in Hall. now apply Hall.
    + apply Hcross; [now left|assumption].
Qed.

Lemma StronglySorted_flat_map (f : A -> list B) (l : list A) :
  StronglySorted R' l ->
  (forall x, StronglySorted R (f x)) ->
  (forall x y, R' x y -> forall a b, In a (f x) -> In b (f y) -> R a b) ->
  StronglySorted R (flat_map f l).
Proof.
  intros Hl Hf Hcross. induction Hl as [|x l Hl IH Hall]; [constructor|].
  cbn [flat_map]. apply StronglySorted_app; [apply Hf|apply IH|].
  intros a b Ha Hb. apply in_flat_map in Hb as (y & Hy & Hb).
  rewrite List.Forall_forall in Hall. exact (Hcross x y (Hall y Hy) a b Ha Hb).
Qed.

Lemma StronglySorted_map_mono (g : A -> B) (l : list A) :
  (forall a b, R' a b -> R (g a) (g b)) ->
  StronglySorted R' l -> StronglySorted R (List.map g l).
Proof.
  intros Hg. induction 1 as [|x l Hs IH Hall]; cbn [List.map]; constructor.
  - assumption.
  - apply List.Forall_forall. intros y Hy.
    apply in_map_iff in Hy as (z & <- & Hz).
    rewrite List.Forall_forall in Hall. apply Hg. now apply Hall.
Qed.

Lemma StronglySorted_map_inv (g : A -> B) (l : list A) :
  (forall a b, R (g a) (g b) -> R' a b) ->
  StronglySorted R (List.map g l) -> StronglySorted R' l.
Proof.
  intros Hg. induction l as [|x l IH]; cbn [List.map]; intros Hs; [constructor|].
  inversion Hs as [|? ? Hs' Hall]; subst. constructor; [now apply IH|].
  apply List.Forall_forall. intros y Hy. apply Hg.
  rewrite List.Forall_forall in Hall. apply Hall. now apply in_map.
Qed.

End SortedConcat.

Lemma years_sorted (s e : Z) : StronglySorted Z.lt (sequence s e).
Proof.
  unfold sequence. apply StronglySorted_map_seq. intros i j Hij. lia.
Qed.

Lemma collection_stamps_sorted (a : Archive) (s e : Z) (aoi : Geometry) :
  StronglySorted stamp_before
    (List.map time_start (monthlyFalseColorCollection a s e aoi)).
Proof.
  rewrite collection_flat, flat_map_concat_map, concat_map, List.map_map.
  rewrite <- flat_map_concat_map.
  apply (StronglySorted_flat_map stamp_before Z.lt); [apply years_sorted| |].
  - intros y. rewrite List.map_map.
    rewrite (List.map_ext _ (fun m => Some (stamp (to_days (fromYMD y m 1)))))
      by (intros m; apply time_start_month_image).
    rewrite <- (List.map_map (fun m => to_days (fromYMD y m 1))
                             (fun d => Some (stamp d))).
    apply (StronglySorted_map_mono stamp_before Z.lt);
      [|apply month_starts_sorted].
    intros d d' Hd. cbn [stamp_before]. now apply SeriesFacts.stamp_lt.
  - intros y y' Hy u v Hu Hv.
    rewrite List.map_map in Hu, Hv.
    apply in_map_iff in Hu as (m & <- & Hm).
    apply in_map_iff in Hv as (m' & <- & Hm').
    rewrite !time_start_month_image. cbn [stamp_before].
    apply SeriesFacts.stamp_lt.
    apply in_sequence in Hm, Hm'. now apply month_starts_years.
Qed.

(** X22.  The collection holds the twelve month images of every year
    from the first to the last, year after year: its length is twelve
    times the number of years, every month of every year of the range
    has its image, and the time stamps are strictly increasing. *)
Theorem monthly_collection_shape (a : Archive) (s e : Z) (aoi : Geometry) :
  let coll := monthlyFalseColorCollection a s e aoi in
  length coll = (12 * Z.to_nat (e - s + 1))%nat
  /\ (forall y m, s <= y <= e -> 1 <= m <= 12 ->
                  In (month_image a aoi y m) coll)
  /\ StronglySorted stamp_before (List.map time_start coll).
Proof.
  intros coll. split; [|split].
  - unfold coll. rewrite collection_flat.
    assert (Hlen : forall ys,
              length (flat_map (fun y => List.map (month_image a aoi y)
                                                  (sequence 1 12)) ys)
              = (12 * length ys)%nat).
    { induction ys as [|y ys IH]; [reflexivity|].
      cbn [flat_map]. rewrite length_app, IH, length_map.
      change (length (sequence 1 12)) with 12%nat. cbn [length]. lia. }
    rewrite Hlen. unfold sequence. now rewrite length_map, length_seq.
  - intros y m Hy Hm. unfold coll. rewrite collection_flat.
    apply in_flat_map. exists y. split; [now apply in_sequence|].
    apply in_map. now apply in_sequence.
  - apply collection_stamps_sorted.
Qed.

Lemma monthly_collection_shape_witness :
  1970 <= 1970 <= 1971 /\ 1 <= 12 <= 12
  /\ In (month_image Demo2.archive Demo.roi 1970 12)
        (monthlyFalseColorCollection Demo2.archive 1970 1971 Demo.roi).
Proof.
  assert (Hy : 1970 <= 1970 <= 1971) by lia.
  assert (Hm : 1 <= 12 <= 12) by lia.
  destruct (monthly_collection_shape Demo2.archive 1970 1971 Demo.roi)
    as (_ & Hin & _).
  split; [exact Hy|split; [exact Hm|exact (Hin 1970 12 Hy Hm)]].
Defined.


Lemma month_image_metadata_witness :
  0 < size (month_collection Demo2.archive Demo.roi 1970 1)
  /\ get "count" (month_image Demo2.archive Demo.roi 1970 1) = Some (inject_Z 5)
  /\ bandNames (month_image Demo2.archive Demo.roi 1970 1)
     = ["B3"; "B4"; "B8"]%string.
Proof.
  assert (Hsize : size (month_collection Demo2.archive Demo.roi 1970 1) = 5)
    by reflexivity.
  assert (Hpos : 0 < size (month_collection Demo2.archive Demo.roi 1970 1))
    by (rewrite Hsize; lia).
  destruct (month_image_metadata Demo2.archive Demo.roi 1970 1)
    as (Hcount & _ & _ & _ & _ & Hvalid & _).
  split; [exact Hpos|split; [|exact (proj1 (Hvalid Hpos))]].
  rewrite Hcount. now rewrite Hsize.
Defined.

Lemma filter_date_true (x y : Date) (i : Image) :
  filter_date x y i = true ->
  exists t, time_start i = Some t /\ (stamp x <= t)%Q /\ (t < stamp y)%Q.
Proof.
  unfold filter_date, time_start, stamp.
  destruct (get "system:time_start" i) as [t|]; [|discriminate].
  intros Hf. apply andb_true_iff in Hf as [Hlo Hhi].
  exists t. split; [reflexivity|]. split; [now apply Qle_bool_iff|].
  unfold Qlt_bool in Hhi. apply negb_true_iff in Hhi.
  now apply Qle_bool_false in Hhi.
Qed.

Lemma time_start_maskS2clouds (image : Image) :
  time_start (maskS2clouds image) = time_start image.
Proof.
  unfold time_start, maskS2clouds, copyProperties, get. cbn [props fold_right].
  destruct (props image !! "system:time_start"%string) as [t|] eqn:E.
  - now rewrite lookup_insert_eq.
  - exact E.
Qed.

(** X23.  Every scene that enters the composite of a month is stamped
    within the month and, whatever the month, before the start of 31
    December of the year: the window of December reaches the first of
    January, but the collection of the year stops one day earlier, so no
    scene of 31 December is ever used. *)
Theorem month_scenes_window (a : Archive) (aoi : Geometry) (y m : Z) (i : Image) :
  In i (month_collection a aoi y m) ->
  (exists t,
     time_start i = Some t
     /\ (stamp (to_days (fromYMD y m 1)) <= t)%Q
     /\ (t < stamp (to_days (advance_month (fromYMD y m 1))))%Q
     /\ (stamp (to_days (fromYMD y 1 1)) <= t)%Q
     /\ (t < stamp (to_days (fromYMD y 12 31)))%Q)
  /\ to_days (fromYMD y 12 31) + 1 = to_days (advance_month (fromYMD y 12 1)).
Proof.
  intros Hi. split; [|apply december_31].
  unfold month_collection, s2_of_year in Hi. cbv zeta in Hi.
  apply filter_In in Hi as [Hi Hmonth].
  apply in_map_iff in Hi as (i0 & <- & Hi0).
  apply filter_In in Hi0 as [Hi0 _].
  apply filter_In in Hi0 as [_ Hyear].
  apply filter_date_true in Hmonth as (t & Ht & Hlo & Hhi).
  apply filter_date_true in Hyear as (t' & Ht' & Hlo' & Hhi').
  rewrite time_start_maskS2clouds in Ht.
  assert (t' = t) by congruence. subst t'.
  exists t. rewrite time_start_maskS2clouds. auto.
Qed.

(** December 1970 of the second concrete archive: the scene of day 363
    is used, and it is stamped before day 364. *)
Lemma month_scenes_window_witness :
  In (maskS2clouds (Demo.scene 363 1 (Demo.s2_bands 1)))
     (month_collection Demo2.archive Demo.roi 1970 12)
  /\ length (month_collection Demo2.archive Demo.roi 1970 12) = 1%nat
  /\ exists t,
       time_start (maskS2clouds (Demo.scene 363 1 (Demo.s2_bands 1))) = Some t
       /\ (t < stamp 364%Z)%Q.
Proof.
  assert (Hin : In (maskS2clouds (Demo.scene 363 1 (Demo.s2_bands 1)))
                   (month_collection Demo2.archive Demo.roi 1970 12))
    by (now left).
  split; [exact Hin|split; [reflexivity|]].
  destruct (month_scenes_window Demo2.archive Demo.roi 1970 12 _ Hin)
    as [(t & Ht & _ & _ & _ & Hdec) _].
  exists t. split; [exact Ht|exact Hdec].
Defined.

Lemma flagged_month_image (a : Archive) (aoi : Geometry) (y m : Z) :
  negb (flagged_noData (month_image a aoi y m))
  = (0 <? size (month_collection a aoi y m)).
Proof.
  unfold month_image, flagged_noData, filter_eq. cbv zeta.
  destruct (0 <? size (month_collection a aoi y m)) eqn:E.
  - rewrite get_set_all_other
      by (cbn [List.map fst In]; intuition discriminate).
    unfold get, clip, median, composite.
    now destruct (month_collection a aoi y m).
  - rewrite (get_set_all_in _ "noData"%string 1%Q);
      [reflexivity|compute_done|cbn [In]; auto 10].
Qed.

(** X24.  On the monthly collection the sort of the animation changes
    nothing: the animated series is the collection without its
    placeholders, and its images are exactly the month images of the
    months that have at least one scene. *)
Theorem gif_series_months (a : Archive) (s e : Z) (aoi : Geometry) :
  let coll := monthlyFalseColorCollection a s e aoi in
  gif_series coll = List.filter (fun i => negb (flagged_noData i)) coll
  /\ (forall i,
        In i (gif_series coll)
        <-> exists y m, s <= y <= e /\ 1 <= m <= 12
                        /\ 0 < size (month_collection a aoi y m)
                        /\ i = month_image a aoi y m).
Proof.
  intros coll.
  assert (Hid : gif_series coll
                = List.filter (fun i => negb (flagged_noData i)) coll).
  { unfold gif_series, sort. apply RangeTheorems.isort_sorted_id.
    apply StronglySorted_Sorted.
    apply (RangeTheorems.StronglySorted_list_filter time_le).
    apply (StronglySorted_map_inv stamp_before time_le time_start);
      [|apply collection_stamps_sorted].
    intros u v. unfold time_le.
    destruct (time_start u) as [x|], (time_start v) as [z|]; cbn;
      try contradiction.
    intros Hlt. now apply Qle_bool_iff, Qlt_le_weak. }
  split; [exact Hid|].
  intros i. rewrite Hid, filter_In. unfold coll.
  rewrite collection_flat, in_flat_map. split.
  - intros [(y & Hy & Hi) Hkeep].
    apply in_map_iff in Hi as (m & <- & Hm).
    apply in_sequence in Hy, Hm. rewrite flagged_month_image in Hkeep.
    apply Z.ltb_lt in Hkeep. exists y, m. auto.
  - intros (y & m & Hy & Hm & Hsize & ->). split.
    + exists y. split; [now apply in_sequence|].
      apply in_map. now apply in_sequence.
    + rewrite flagged_month_image. now apply Z.ltb_lt.
Qed.

End FalseColorTheorems.
